(** * BackUpFreeSpace: the free-sector finder and the back-up cycle

    A shallow embedding of [src/behaviors/back_up_free_space.cpp]
    (pb_nav2_plugins).  The sweep, the arc tracker and the behavior are
    embedded with the C++ [float]/[double] values idealised as exact
    rationals ([Q]): rounding, NaN and infinities are outside that model; the
    one quotient that may not be finite is converted to [int] at once, which
    is undefined behaviour.  The classification of one heading, where
    rounding decides which samples are taken and which cells are read, is
    embedded a second time in IEEE 754 single and double precision (module
    [Single]), and the statements about samples and bounds are made there.
    The library functions [std::cos], [std::sin] and [hypot] map floats to
    floats; they are parameters of the development (a [FloatMath] record,
    and a [FloatLib] record in single precision), with one rational
    instance, rounded where floats are asked for, to run the code on
    concrete grids.  Machine integers are [Z] with the conversions written
    out; times are integral nanoseconds. *)

From Stdlib Require Import ZArith QArith Qround Qabs List Bool String Lia Lqa.
From Stdlib Require Import SpecFloat.
Import ListNotations.

Local Open Scope Z_scope.
Local Open Scope Q_scope.

(** ** Outcomes of code that may loop or leave defined behaviour *)

Inductive outcome (A : Type) : Type :=
| Done (a : A)      (* the code returned [a] *)
| Undefined         (* undefined behaviour was reached *)
| OutOfFuel.        (* the loop was still running when the fuel ran out *)

Arguments Done {A} a.
Arguments Undefined {A}.
Arguments OutOfFuel {A}.

Definition bind {A B : Type} (o : outcome A) (k : A -> outcome B) : outcome B :=
  match o with
  | Done a => k a
  | Undefined => Undefined
  | OutOfFuel => OutOfFuel
  end.

Notation "x <- e ;; k" := (bind e (fun x => k))
  (at level 61, e at next level, right associativity).

(** ** Numbers *)

Definition INT_MAX : Z := 2147483647.
Definition INT_MIN : Z := -2147483648.

(** [int n = u] for a [uint32] value [u]: the value modulo 2^32, read as
    a two's complement [int]. *)
Definition uint32_to_int (u : Z) : Z :=
  ((u + 2147483648) mod 4294967296 - 2147483648)%Z.

(** Float division; [None] when the quotient is not a finite number. *)
Definition fdiv (a b : Q) : option Q :=
  if Qeq_bool b 0 then None else Some (a / b).

(** Truncation toward zero. *)
Definition Qtrunc (q : Q) : Z := Z.quot (Qnum q) (Zpos (Qden q)).

(** [static_cast<int>] of a float expression: undefined unless the truncated
    value is representable. *)
Definition static_cast_int (q : option Q) : option Z :=
  match q with
  | None => None
  | Some v =>
      let t := Qtrunc v in
      if ((INT_MIN <=? t) && (t <=? INT_MAX))%Z then Some t else None
  end.

(** [int] addition and multiplication; signed overflow is undefined. *)
Definition int_checked (z : Z) : option Z :=
  if ((INT_MIN <=? z) && (z <=? INT_MAX))%Z then Some z else None.

(** [a < b] and [a > b] on floats. *)
Definition Qlt_bool (a b : Q) : bool := negb (Qle_bool b a).
Definition Qgt_bool (a b : Q) : bool := negb (Qle_bool a b).

(** [M_PI], the [double] nearest to pi. *)
Definition M_PI : Q := 884279719003555 # 281474976710656.

(** The value of a loop variable after [k] executions of [x += inc]. *)
Fixpoint nth_step (x inc : Q) (k : nat) : Q :=
  match k with
  | O => x
  | S k' => nth_step (x + inc) inc k'
  end.

(** The loop [for (v = x; v <= bound; v += inc)] leaves within [fuel]
    tests of its condition. *)
Definition exits (x bound inc : Q) (fuel : nat) : Prop :=
  exists n, (n < fuel)%nat /\ bound < nth_step x inc n.

(** Iterations that suffice for [for (v = x; v <= bound; v += inc)] to leave
    the loop when [inc] is positive.  With a non-positive increment the
    condition never turns false by itself; two iterations are granted, enough
    to observe whether the body leaves the loop. *)
Definition loop_fuel (x bound inc : Q) : nat :=
  if Qle_bool x bound then
    if Qle_bool inc 0 then 2%nat
    else (Z.to_nat (Qfloor ((bound - x) / inc)) + 2)%nat
  else 1%nat.

(** ** Library functions on floats *)

Record FloatMath : Type := {
  fcos : Q -> Q;
  fsin : Q -> Q;
  fhypot : Q -> Q -> Q
}.

(** ** Messages *)

Record Pose2D : Type := {
  pose_x : Q;
  pose_y : Q;
  pose_theta : Q
}.

(** [nav2_msgs::msg::Costmap]: the metadata fields the code reads, and the
    cell array ([uint8] values). *)
Record Costmap : Type := {
  resolution : Q;
  origin_x : Q;
  origin_y : Q;
  size_x : Z;      (* uint32 *)
  size_y : Z;      (* uint32 *)
  data : list Z
}.

(** The part of a [geometry_msgs::msg::PoseStamped] the code reads: the
    position, and the yaw [tf2::getYaw] extracts from the orientation. *)
Record PoseStamped : Type := {
  position_x : Q;
  position_y : Q;
  yaw : Q
}.

(** [BackUpAction::Goal]; the time allowance in nanoseconds. *)
Record Goal : Type := {
  speed : Q;
  target_x : Q;
  time_allowance : Z
}.

Inductive Status : Type := SUCCEEDED | FAILED | RUNNING.

(** What the behavior sends to its sinks, in program order. *)
Inductive Event : Type :=
| StopRobot
| PublishFeedback (distance_traveled : Q)
| PublishVel (linear_x linear_y : Q)
| PublishTargetMarker (x y : Q)
| PublishRayMarkers
| LogWarn (msg : string)
| LogError (msg : string).

(** ** The behavior object *)

(** The members of [BackUpFreeSpace] the source file reads or writes.  A
    handle ([costmap_client_], [marker_pub_], [marker_pub_line_]) is [true]
    when the pointer is set. *)
Record BackUpFreeSpace : Type := {
  global_frame_ : string;
  robot_radius_ : Q;
  max_radius_ : Q;
  service_name_ : string;
  free_threshold_ : Z;
  visualize_ : bool;
  costmap_client_ : bool;
  marker_pub_ : bool;
  marker_pub_line_ : bool;
  initial_pose_ : PoseStamped;
  twist_x_ : Q;
  twist_y_ : Q;
  command_x_ : Q;
  command_time_allowance_ : Z;
  end_time_ : Z
}.

(** The object with another value of [free_threshold_]. *)
Definition with_free_threshold (self : BackUpFreeSpace) (threshold : Z)
    : BackUpFreeSpace :=
  {| global_frame_ := global_frame_ self;
     robot_radius_ := robot_radius_ self;
     max_radius_ := max_radius_ self;
     service_name_ := service_name_ self;
     free_threshold_ := threshold;
     visualize_ := visualize_ self;
     costmap_client_ := costmap_client_ self;
     marker_pub_ := marker_pub_ self;
     marker_pub_line_ := marker_pub_line_ self;
     initial_pose_ := initial_pose_ self;
     twist_x_ := twist_x_ self;
     twist_y_ := twist_y_ self;
     command_x_ := command_x_ self;
     command_time_allowance_ := command_time_allowance_ self;
     end_time_ := end_time_ self |}.

Module Finder.
Section Finder.

Variable fm : FloatMath.

(** The grid quantities [findBestDirection] computes before the sweep. *)
Definition isize_x (costmap : Costmap) : Z := uint32_to_int (size_x costmap).
Definition isize_y (costmap : Costmap) : Z := uint32_to_int (size_y costmap).
Definition map_min_x (costmap : Costmap) : Q := origin_x costmap.
Definition map_max_x (costmap : Costmap) : Q :=
  origin_x costmap + inject_Z (isize_x costmap) * resolution costmap.
Definition map_min_y (costmap : Costmap) : Q := origin_y costmap.
Definition map_max_y (costmap : Costmap) : Q :=
  origin_y costmap + inject_Z (isize_y costmap) * resolution costmap.

(** The lethal test on a cell value: the literal 253. *)
Definition is_lethal (v : Z) : bool := (253 <=? v)%Z.

(** The body of the ray loop for the sample point [(x, y)]: [Done true] when
    the loop goes on to the next sample, [Done false] when it sets
    [is_safe = false] and breaks. *)
Definition sample_safe (costmap : Costmap) (x y : Q) : outcome bool :=
  if Qle_bool (map_min_x costmap) x && Qle_bool x (map_max_x costmap) &&
     Qle_bool (map_min_y costmap) y && Qle_bool y (map_max_y costmap)
  then
    match static_cast_int (fdiv (x - origin_x costmap) (resolution costmap)),
          static_cast_int (fdiv (y - origin_y costmap) (resolution costmap)) with
    | Some i, Some j =>
        if ((0 <=? i) && (i <? isize_x costmap) &&
            (0 <=? j) && (j <? isize_y costmap))%Z
        then
          match int_checked (j * isize_x costmap) with
          | Some jw =>
              match int_checked (i + jw) with
              | Some idx =>
                  match nth_error (data costmap) (Z.to_nat idx) with
                  | Some v => Done (negb (is_lethal v))
                  | None => Undefined
                  end
              | None => Undefined
              end
          | None => Undefined
          end
        else Done false
    | _, _ => Undefined
    end
  else Done false.

(** The sample point of the ray at [angle] and distance [r]. *)
Definition ray_x (pose : Pose2D) (angle r : Q) : Q := pose_x pose + r * fcos fm angle.
Definition ray_y (pose : Pose2D) (angle r : Q) : Q := pose_y pose + r * fsin fm angle.

(** [for (float r = 0; r <= radius; r += resolution)] with its breaks; the
    result is the final [is_safe]. *)
Fixpoint ray_loop (costmap : Costmap) (pose : Pose2D) (radius angle : Q)
    (fuel : nat) (r : Q) : outcome bool :=
  match fuel with
  | O => OutOfFuel
  | S fuel' =>
      if Qle_bool r radius then
        ok <- sample_safe costmap (ray_x pose angle r) (ray_y pose angle r) ;;
        if ok then ray_loop costmap pose radius angle fuel' (r + resolution costmap)
        else Done false
      else Done true
  end.

(** [is_safe] of one candidate heading. *)
Definition heading_safe (costmap : Costmap) (pose : Pose2D) (radius angle : Q)
    : outcome bool :=
  ray_loop costmap pose radius angle (loop_fuel 0 radius (resolution costmap)) 0.

(** *** The arc tracker *)

Record Tracker : Type := {
  first_safe_angle : Q;
  last_unsafe_angle : Q;
  final_safe_angle : Q;
  final_unsafe_angle : Q
}.

(** The values the four variables are initialised with, lines 189-193. *)
Definition tracker_init : Tracker :=
  {| first_safe_angle := -1; last_unsafe_angle := -1;
     final_safe_angle := 0; final_unsafe_angle := 0 |}.

(** [a == -1.0f] *)
Definition is_unset (a : Q) : bool := Qeq_bool a (-1).

(** The three [if] statements that follow the ray loop (lines 231-246), for a
    heading [angle] whose ray gave [is_safe]. *)
Definition track_step (angle : Q) (is_safe : bool) (t : Tracker) : Tracker :=
  let first1 :=
    if is_safe && is_unset (first_safe_angle t) then angle
    else first_safe_angle t in
  let last1 :=
    if negb is_safe && negb (is_unset first1) && is_unset (last_unsafe_angle t)
    then angle else last_unsafe_angle t in
  if Qgt_bool (last1 - first1) (final_unsafe_angle t - final_safe_angle t) &&
     negb (is_unset first1) && negb (is_unset last1)
  then {| first_safe_angle := -1; last_unsafe_angle := -1;
          final_safe_angle := first1; final_unsafe_angle := last1 |}
  else {| first_safe_angle := first1; last_unsafe_angle := last1;
          final_safe_angle := final_safe_angle t;
          final_unsafe_angle := final_unsafe_angle t |}.

(** [for (float angle = start_angle; angle <= end_angle; angle += angle_increment)] *)
Fixpoint sweep_loop (costmap : Costmap) (pose : Pose2D)
    (end_angle radius angle_increment : Q)
    (fuel : nat) (angle : Q) (t : Tracker) : outcome Tracker :=
  match fuel with
  | O => OutOfFuel
  | S fuel' =>
      if Qle_bool angle end_angle then
        is_safe <- heading_safe costmap pose radius angle ;;
        sweep_loop costmap pose end_angle radius angle_increment fuel'
          (angle + angle_increment) (track_step angle is_safe t)
      else Done t
  end.

(** The tracker after the whole sweep. *)
Definition sweep (costmap : Costmap) (pose : Pose2D)
    (start_angle end_angle radius angle_increment : Q) : outcome Tracker :=
  sweep_loop costmap pose end_angle radius angle_increment
    (loop_fuel start_angle end_angle angle_increment) start_angle tracker_init.

(** [visualizeline] publishes two arrow markers through [marker_pub_line_];
    nothing of them flows back, so only whether the call is defined is kept
    here: the handle it dereferences must be set.  What is sent on the way
    (this marker array and the warning of line 249) is in the log of
    [Behavior.onRun], as [Behavior.finder_events]. *)
Definition visualizeline (self : BackUpFreeSpace) (pose : Pose2D)
    (radius first_safe last_unsafe : Q) : outcome unit :=
  if marker_pub_line_ self then Done tt else Undefined.

(** Line 248. *)
Definition midpoint (t : Tracker) : Q :=
  (final_safe_angle t + final_unsafe_angle t) / 2.

(** [BackUpFreeSpace::findBestDirection], a method of the object [self]. *)
Definition findBestDirection (self : BackUpFreeSpace)
    (costmap : Costmap) (pose : Pose2D)
    (start_angle end_angle radius angle_increment : Q) : outcome Q :=
  t <- sweep costmap pose start_angle end_angle radius angle_increment ;;
  let best_angle := midpoint t in
  _ <- visualizeline self pose radius
         (final_safe_angle t) (final_unsafe_angle t) ;;
  Done best_angle.

(** *** Notions the statements use *)

(** The candidate headings of the sweep, in scan order. *)
Fixpoint angles_from (end_angle angle_increment : Q) (fuel : nat) (angle : Q)
    : list Q :=
  match fuel with
  | O => []
  | S fuel' =>
      if Qle_bool angle end_angle
      then angle :: angles_from end_angle angle_increment fuel' (angle + angle_increment)
      else []
  end.

Definition sweep_angles (start_angle end_angle angle_increment : Q) : list Q :=
  angles_from end_angle angle_increment
    (loop_fuel start_angle end_angle angle_increment) start_angle.

(** [is_safe] of every candidate heading, in scan order. *)
Definition sweep_flags (costmap : Costmap) (pose : Pose2D)
    (start_angle end_angle radius angle_increment : Q) : list (outcome bool) :=
  map (heading_safe costmap pose radius)
      (sweep_angles start_angle end_angle angle_increment).

(** No arc is open: [first_safe_angle] holds the sentinel. *)
Definition no_open_arc (t : Tracker) : Prop :=
  is_unset (first_safe_angle t) = true.

(** The pending arc, if closed, is not wider than the recorded one. *)
Definition settled (t : Tracker) : Prop :=
  is_unset (last_unsafe_angle t) = true \/
  (is_unset (first_safe_angle t) = false /\
   Qgt_bool (last_unsafe_angle t - first_safe_angle t)
            (final_unsafe_angle t - final_safe_angle t) = false).

(** The recorded arc. *)
Definition recorded (t : Tracker) : Q * Q :=
  (final_safe_angle t, final_unsafe_angle t).

(** The tracker run over a list of headings with their [is_safe]. *)
Definition track_all (hs : list (Q * bool)) (t : Tracker) : Tracker :=
  fold_left (fun t h => track_step (fst h) (snd h) t) hs t.

(** The headings [l], all safe or all unsafe. *)
Definition headings (is_safe : bool) (l : list Q) : list (Q * bool) :=
  map (fun a => (a, is_safe)) l.

Definition observed (h : Q * bool) : Q * outcome bool := (fst h, Done (snd h)).

(** Every candidate heading with what the ray loop makes of it. *)
Definition sweep_profile (costmap : Costmap) (pose : Pose2D)
    (start_angle end_angle radius angle_increment : Q)
    : list (Q * outcome bool) :=
  map (fun a => (a, heading_safe costmap pose radius a))
      (sweep_angles start_angle end_angle angle_increment).

(** The cell a sample point reads: [Done (Some v)] when the point passes both
    bounds tests and the cell holds [v], [Done None] when it fails one. *)
Definition sample_cell (costmap : Costmap) (x y : Q) : outcome (option Z) :=
  if Qle_bool (map_min_x costmap) x && Qle_bool x (map_max_x costmap) &&
     Qle_bool (map_min_y costmap) y && Qle_bool y (map_max_y costmap)
  then
    match static_cast_int (fdiv (x - origin_x costmap) (resolution costmap)),
          static_cast_int (fdiv (y - origin_y costmap) (resolution costmap)) with
    | Some i, Some j =>
        if ((0 <=? i) && (i <? isize_x costmap) &&
            (0 <=? j) && (j <? isize_y costmap))%Z
        then
          match int_checked (j * isize_x costmap) with
          | Some jw =>
              match int_checked (i + jw) with
              | Some idx =>
                  match nth_error (data costmap) (Z.to_nat idx) with
                  | Some v => Done (Some v)
                  | None => Undefined
                  end
              | None => Undefined
              end
          | None => Undefined
          end
        else Done None
    | _, _ => Undefined
    end
  else Done None.

(** Sound metadata: a positive resolution and sizes within [int]. *)
Definition wf_metadata (costmap : Costmap) : Prop :=
  0 < resolution costmap /\
  (0 <= size_x costmap <= INT_MAX)%Z /\
  (0 <= size_y costmap <= INT_MAX)%Z.

(** A costmap message as the costmap server builds it: sound metadata, and
    one cell value for each of the [size_x * size_y] cells, their number
    within [int]. *)
Definition wf_costmap (costmap : Costmap) : Prop :=
  wf_metadata costmap /\
  (size_x costmap * size_y costmap <= INT_MAX)%Z /\
  Z.of_nat (List.length (data costmap)) = (size_x costmap * size_y costmap)%Z.

End Finder.
End Finder.

(** ** The behavior: configure, run, cycle update *)

Module Behavior.
Section Behavior.

Variable fm : FloatMath.

(** The node's parameter overrides; [None] where the parameter is not set,
    so that [declare_parameter_if_not_declared] installs the default. *)
Record Params : Type := {
  p_global_frame : option string;
  p_robot_radius : option Q;
  p_max_radius : option Q;
  p_service_name : option string;
  p_free_threshold : option Z;
  p_visualize : option bool
}.

Definition no_overrides : Params :=
  {| p_global_frame := None; p_robot_radius := None; p_max_radius := None;
     p_service_name := None; p_free_threshold := None; p_visualize := None |}.

(** [declare_parameter_if_not_declared] followed by [get_parameter]. *)
Definition param {A : Type} (override : option A) (default : A) : A :=
  match override with
  | Some v => v
  | None => default
  end.

(** [onConfigure]; [node] is [None] when [node_.lock()] fails, and the
    result is [None] when the exception is thrown. *)
Definition onConfigure (self : BackUpFreeSpace) (node : option Params)
    : option BackUpFreeSpace :=
  match node with
  | None => None
  | Some ps =>
      let robot_radius := param (p_robot_radius ps) (1 # 10) in
      let max_radius := param (p_max_radius ps) 1 in
      let visualize := param (p_visualize ps) false in
      Some {| global_frame_ := param (p_global_frame ps) "map"%string;
              robot_radius_ := robot_radius;
              max_radius_ :=
                if Qlt_bool max_radius robot_radius then robot_radius
                else max_radius;
              service_name_ :=
                param (p_service_name ps) "local_costmap/get_costmap"%string;
              free_threshold_ := param (p_free_threshold ps) 5%Z;
              visualize_ := visualize;
              costmap_client_ := true;
              marker_pub_ := if visualize then true else marker_pub_ self;
              marker_pub_line_ :=
                if visualize then true else marker_pub_line_ self;
              initial_pose_ := initial_pose_ self;
              twist_x_ := twist_x_ self;
              twist_y_ := twist_y_ self;
              command_x_ := command_x_ self;
              command_time_allowance_ := command_time_allowance_ self;
              end_time_ := end_time_ self |}
  end.

(** [onCleanup] resets the three handles. *)
Definition onCleanup (self : BackUpFreeSpace) : BackUpFreeSpace :=
  {| global_frame_ := global_frame_ self;
     robot_radius_ := robot_radius_ self;
     max_radius_ := max_radius_ self;
     service_name_ := service_name_ self;
     free_threshold_ := free_threshold_ self;
     visualize_ := visualize_ self;
     costmap_client_ := false;
     marker_pub_ := false;
     marker_pub_line_ := false;
     initial_pose_ := initial_pose_ self;
     twist_x_ := twist_x_ self;
     twist_y_ := twist_y_ self;
     command_x_ := command_x_ self;
     command_time_allowance_ := command_time_allowance_ self;
     end_time_ := end_time_ self |}.

(** [getCurrentPose (initial_pose_, ...)] on success. *)
Definition with_initial_pose (self : BackUpFreeSpace) (p : PoseStamped)
    : BackUpFreeSpace :=
  {| global_frame_ := global_frame_ self;
     robot_radius_ := robot_radius_ self;
     max_radius_ := max_radius_ self;
     service_name_ := service_name_ self;
     free_threshold_ := free_threshold_ self;
     visualize_ := visualize_ self;
     costmap_client_ := costmap_client_ self;
     marker_pub_ := marker_pub_ self;
     marker_pub_line_ := marker_pub_line_ self;
     initial_pose_ := p;
     twist_x_ := twist_x_ self;
     twist_y_ := twist_y_ self;
     command_x_ := command_x_ self;
     command_time_allowance_ := command_time_allowance_ self;
     end_time_ := end_time_ self |}.

(** The assignments of lines 107-112. *)
Definition with_command (self : BackUpFreeSpace)
    (twist_x twist_y command_x : Q) (allowance end_time : Z) : BackUpFreeSpace :=
  {| global_frame_ := global_frame_ self;
     robot_radius_ := robot_radius_ self;
     max_radius_ := max_radius_ self;
     service_name_ := service_name_ self;
     free_threshold_ := free_threshold_ self;
     visualize_ := visualize_ self;
     costmap_client_ := costmap_client_ self;
     marker_pub_ := marker_pub_ self;
     marker_pub_line_ := marker_pub_line_ self;
     initial_pose_ := initial_pose_ self;
     twist_x_ := twist_x;
     twist_y_ := twist_y;
     command_x_ := command_x;
     command_time_allowance_ := allowance;
     end_time_ := end_time |}.

(** What [onRun] observes of its collaborators.  [service_ready n] is the
    result of the [n]-th call of [wait_for_service] (each blocks for at most
    one second), [rclcpp_ok n] that of [rclcpp::ok()] after it;
    [costmap_response] is [None] when the response does not arrive within
    the second [wait_for] grants; the two pose lookups are [None] when
    [getCurrentPose] fails. *)
Record RunEnv : Type := {
  service_ready : nat -> bool;
  rclcpp_ok : nat -> bool;
  costmap_response : option Costmap;
  pose_lookup_1 : option PoseStamped;
  pose_lookup_2 : option PoseStamped;
  run_now : Z
}.

Definition msg_interrupted : string :=
  "Interrupted while waiting for the service. Exiting.".
Definition msg_waiting : string := "service not available, waiting again...".
Definition msg_no_initial_pose : string := "Initial robot pose is not available.".
Definition msg_first_last : string := "first %f last%f".
Definition msg_backing_up : string :=
  "backing up %f meters towards free space at angle %f".
Definition msg_timeout : string :=
  "Exceeded time allowance before reaching the DriveOnHeading goal - Exiting DriveOnHeading".
Definition msg_no_current_pose : string := "Current robot pose is not available.".
Definition msg_collision : string := "Collision Ahead - Exiting DriveOnHeading".

(** [while (!costmap_client_->wait_for_service (1s)) { ... }], lines 73-79,
    from its [n]-th iteration on.  [Done (true, log)]: the service is there
    and the loop was left by its condition; [Done (false, log)]: the loop
    was left by [return FAILED]. *)
Fixpoint wait_for_service_loop (env : RunEnv) (fuel n : nat) (log : list Event)
    : outcome (bool * list Event) :=
  match fuel with
  | O => OutOfFuel
  | S fuel' =>
      if service_ready env n then Done (true, log)
      else if negb (rclcpp_ok env n)
           then Done (false, log ++ [LogError msg_interrupted])
           else wait_for_service_loop env fuel' (S n)
                  (log ++ [LogWarn msg_waiting])
  end.

Definition pose2d_of (p : PoseStamped) : Pose2D :=
  {| pose_x := position_x p; pose_y := position_y p; pose_theta := yaw p |}.

(** [visualize (target_point)] publishes through [marker_pub_]. *)
Definition visualize (self : BackUpFreeSpace) (x y : Q) : outcome (list Event) :=
  if marker_pub_ self then Done [PublishTargetMarker x y] else Undefined.

(** What [findBestDirection] sends before it returns: the warning of line
    249 and the marker array [visualizeline] publishes (its two arrows are
    not kept). *)
Definition finder_events : list Event :=
  [LogWarn msg_first_last; PublishRayMarkers].

(** [onRun]; [fuel] bounds the iterations of the wait loop. *)
Definition onRun (fuel : nat) (self : BackUpFreeSpace) (command : Goal)
    (env : RunEnv) : outcome (Status * BackUpFreeSpace * list Event) :=
  if negb (costmap_client_ self) then Undefined else
  w <- wait_for_service_loop env fuel 0 [] ;;
  let (ready, log) := w in
  if negb ready then Done (FAILED, self, log) else
  match costmap_response env with
  | None => Done (FAILED, self, log ++ [LogError msg_interrupted])
  | Some costmap =>
      match pose_lookup_1 env with
      | None => Done (FAILED, self, log ++ [LogError msg_no_initial_pose])
      | Some p1 =>
          let self1 := with_initial_pose self p1 in
          let pose := pose2d_of p1 in
          best_angle <- Finder.findBestDirection fm self1 costmap pose
                          (- M_PI) M_PI (max_radius_ self1) (M_PI / 32) ;;
          let log := log ++ finder_events in
          let self2 :=
            with_command self1
              (fcos fm best_angle * speed command)
              (fsin fm best_angle * speed command)
              (target_x command) (time_allowance command)
              (run_now env + time_allowance command)%Z in
          match pose_lookup_2 env with
          | None => Done (FAILED, self2, log ++ [LogError msg_no_initial_pose])
          | Some p2 =>
              let self3 := with_initial_pose self2 p2 in
              let log3 := log ++ [LogWarn msg_backing_up] in
              if visualize_ self3 then
                m <- visualize self3
                       (position_x p2 + command_x_ self3 * fcos fm best_angle)
                       (position_y p2 + command_x_ self3 * fsin fm best_angle) ;;
                Done (SUCCEEDED, self3, log3 ++ m)
              else Done (SUCCEEDED, self3, log3)
          end
      end
  end.

(** What one call of [onCycleUpdate] observes: the clock, the pose lookup,
    and the answer of [isCollisionFree] (a member the source file calls and
    does not define). *)
Record CycleEnv : Type := {
  cycle_now : Z;
  cycle_pose : option PoseStamped;
  isCollisionFree : Q -> Q * Q -> Pose2D -> bool
}.

(** [hypot (diff_x, diff_y)] of lines 151-153. *)
Definition distance_from (self : BackUpFreeSpace) (current_pose : PoseStamped) : Q :=
  let diff_x := position_x (initial_pose_ self) - position_x current_pose in
  let diff_y := position_y (initial_pose_ self) - position_y current_pose in
  fhypot fm diff_x diff_y.

(** [onCycleUpdate]: the status returned and the events sent, in order. *)
Definition onCycleUpdate (self : BackUpFreeSpace) (env : CycleEnv)
    : Status * list Event :=
  let time_remaining := (end_time_ self - cycle_now env)%Z in
  if ((time_remaining <? 0) && (0 <? command_time_allowance_ self))%Z then
    (FAILED, [StopRobot; LogWarn msg_timeout])
  else
    match cycle_pose env with
    | None => (FAILED, [LogError msg_no_current_pose])
    | Some current_pose =>
        let distance := distance_from self current_pose in
        if Qle_bool (Qabs (command_x_ self)) distance then
          (SUCCEEDED, [PublishFeedback distance; StopRobot])
        else
          let cmd_vel := (twist_x_ self, twist_y_ self) in
          let pose := pose2d_of current_pose in
          if negb (isCollisionFree env distance cmd_vel pose) then
            (FAILED, [PublishFeedback distance; StopRobot; LogWarn msg_collision])
          else
            (RUNNING, [PublishFeedback distance;
                       PublishVel (twist_x_ self) (twist_y_ self)])
    end.

(** The host calls [onCycleUpdate] once per control tick for as long as it
    returns [RUNNING]; [ticks] are the observations of the successive
    ticks.  The status is [RUNNING] when the ticks end before the maneuver. *)
Fixpoint run_cycles (self : BackUpFreeSpace) (ticks : list CycleEnv)
    : Status * list Event :=
  match ticks with
  | [] => (RUNNING, [])
  | env :: rest =>
      match onCycleUpdate self env with
      | (RUNNING, ev) =>
          let (s, ev') := run_cycles self rest in (s, ev ++ ev')
      | r => r
      end
  end.

(** The feedback values among the events. *)
Fixpoint feedback_values (ev : list Event) : list Q :=
  match ev with
  | [] => []
  | PublishFeedback d :: rest => d :: feedback_values rest
  | _ :: rest => feedback_values rest
  end.

End Behavior.
End Behavior.

(** ** A rational instance of the float library

    Truncated Taylor sums for the cosine and the sine (thirteen terms, exact
    to better than 10^-9 on [-4, 4]), and a square root taken on integers
    at a scale of 10^-6. *)

Module Approx.

Fixpoint taylor (n : nat) (k : Z) (term acc x2 : Q) : Q :=
  match n with
  | O => acc
  | S n' =>
      let term' := Qred (term * (- x2) / inject_Z ((k + 1) * (k + 2))) in
      taylor n' (k + 2)%Z term' (Qred (acc + term')) x2
  end.

Definition cosq (x : Q) : Q := taylor 12 0 1 1 (x * x).
Definition sinq (x : Q) : Q := taylor 12 1 x x (x * x).

Definition hypotq (a b : Q) : Q :=
  Z.sqrt (Qfloor ((a * a + b * b) * inject_Z 1000000000000)) # 1000000.

Definition float_math : FloatMath :=
  {| fcos := cosq; fsin := sinq; fhypot := hypotq |}.

End Approx.

(** ** Concrete objects, grids and sweeps *)

Module Examples.

(** An object configured with [visualize] set: all three handles exist. *)
Definition configured : BackUpFreeSpace :=
  {| global_frame_ := "map"; robot_radius_ := 1 # 10; max_radius_ := 1;
     service_name_ := "local_costmap/get_costmap"; free_threshold_ := 5;
     visualize_ := true;
     costmap_client_ := true; marker_pub_ := true; marker_pub_line_ := true;
     initial_pose_ := {| position_x := 0; position_y := 0; yaw := 0 |};
     twist_x_ := 0; twist_y_ := 0; command_x_ := 0;
     command_time_allowance_ := 0; end_time_ := 0 |}.

(** The object as constructed: no handle set, nothing configured. *)
Definition constructed : BackUpFreeSpace :=
  {| global_frame_ := ""; robot_radius_ := 0; max_radius_ := 0;
     service_name_ := ""; free_threshold_ := 0; visualize_ := false;
     costmap_client_ := false; marker_pub_ := false; marker_pub_line_ := false;
     initial_pose_ := {| position_x := 0; position_y := 0; yaw := 0 |};
     twist_x_ := 0; twist_y_ := 0; command_x_ := 0;
     command_time_allowance_ := 0; end_time_ := 0 |}.

(** A grid of three by three cells of one metre, its corner at the origin;
    [cells] lists the rows [j = 0, 1, 2], each from [i = 0] to [i = 2]. *)
Definition grid3 (cells : list Z) : Costmap :=
  {| resolution := 1; origin_x := 0; origin_y := 0;
     size_x := 3; size_y := 3; data := cells |}.

(** The centre of the middle cell. *)
Definition centre : Pose2D := {| pose_x := 3 # 2; pose_y := 3 # 2; pose_theta := 0 |}.

(** Six headings, one radian apart: -2.5, -1.5, -0.5, 0.5, 1.5, 2.5.  With a
    radius of one metre each ray is sampled at the centre and one metre out,
    where it falls in the cells (0,0), (1,0), (2,1), (2,1), (1,2), (0,2). *)
Definition six_start : Q := - (5 # 2).
Definition six_end : Q := 5 # 2.

Definition all_free : Costmap := grid3 [0; 0; 0; 0; 0; 0; 0; 0; 0]%Z.
Definition all_lethal : Costmap :=
  grid3 [254; 254; 254; 254; 254; 254; 254; 254; 254]%Z.

(** Lethal cells (0,0), (1,0) and (2,1): only the last two headings are safe. *)
Definition one_arc_at_end : Costmap := grid3 [254; 254; 0; 0; 0; 254; 0; 0; 0]%Z.

(** Lethal cells (1,0) and (2,1): the first heading is safe, the next three
    are not, the last two are safe. *)
Definition wide_arc_at_end : Costmap := grid3 [0; 254; 0; 0; 0; 254; 0; 0; 0]%Z.

(** Lethal cells (0,0), (1,0) and (0,2): the headings -0.5, 0.5 and 1.5 are
    safe, the others are not. *)
Definition closed_arc : Costmap := grid3 [254; 254; 0; 0; 0; 0; 254; 0; 0]%Z.

(** Lethal cells (1,0), (1,2) and (0,2): safe, unsafe, safe, safe, unsafe,
    unsafe. *)
Definition narrow_then_wide : Costmap := grid3 [0; 254; 0; 0; 0; 0; 254; 254; 0]%Z.


(** A maneuver under way: reference pose at the origin, ten metres to go,
    no time allowance set. *)
Definition backing : BackUpFreeSpace :=
  {| global_frame_ := "map"; robot_radius_ := 1 # 10; max_radius_ := 1;
     service_name_ := "local_costmap/get_costmap"; free_threshold_ := 5;
     visualize_ := true;
     costmap_client_ := true; marker_pub_ := true; marker_pub_line_ := true;
     initial_pose_ := {| position_x := 0; position_y := 0; yaw := 0 |};
     twist_x_ := 1 # 2; twist_y_ := 0; command_x_ := 10;
     command_time_allowance_ := 0; end_time_ := 0 |}.

(** The same maneuver with one metre to go and five seconds allowed, the
    deadline at 5 s. *)
Definition timed : BackUpFreeSpace :=
  Behavior.with_command backing (1 # 2) 0 1 5000000000 5000000000.

(** A control tick at time [now] that finds the robot at [(x, y)] and the
    path ahead [clear] or not. *)
Definition tick (now : Z) (x y : Q) (clear : bool) : Behavior.CycleEnv :=
  {| Behavior.cycle_now := now;
     Behavior.cycle_pose := Some {| position_x := x; position_y := y; yaw := 0 |};
     Behavior.isCollisionFree := fun _ _ _ => clear |}.

(** The grid service never shows up while the process keeps running. *)
Definition service_down : Behavior.RunEnv :=
  {| Behavior.service_ready := fun _ => false;
     Behavior.rclcpp_ok := fun _ => true;
     Behavior.costmap_response := None;
     Behavior.pose_lookup_1 := None;
     Behavior.pose_lookup_2 := None;
     Behavior.run_now := 0 |}.

(** The service is down and the process is shut down during the third wait. *)
Definition shutdown_in_third_wait : Behavior.RunEnv :=
  {| Behavior.service_ready := fun _ => false;
     Behavior.rclcpp_ok := fun n => (n <? 2)%nat;
     Behavior.costmap_response := None;
     Behavior.pose_lookup_1 := None;
     Behavior.pose_lookup_2 := None;
     Behavior.run_now := 0 |}.

(** A robot radius of 1.5 m configured with a search radius of 0.5 m. *)
Definition wide_robot : Behavior.Params :=
  {| Behavior.p_global_frame := None;
     Behavior.p_robot_radius := Some (3 # 2);
     Behavior.p_max_radius := Some (1 # 2);
     Behavior.p_service_name := None;
     Behavior.p_free_threshold := None;
     Behavior.p_visualize := None |}.

Definition goal : Goal :=
  {| speed := 1 # 2; target_x := 1; time_allowance := 5000000000 |}.

End Examples.

(** ** Further notions about the tracker *)

Module FinderNotions.
Import Finder.

(** Each tracked angle is the sentinel or lies between [lo] and [hi], and
    the recorded arc is the initial pair or lies between them. *)
Definition ranged (lo hi : Q) (t : Tracker) : Prop :=
  (first_safe_angle t = -1 \/ (lo <= first_safe_angle t /\ first_safe_angle t <= hi)) /\
  (last_unsafe_angle t = -1 \/ (lo <= last_unsafe_angle t /\ last_unsafe_angle t <= hi)) /\
  (recorded t = (0, 0) \/
   (lo <= final_safe_angle t /\ final_safe_angle t <= hi /\
    lo <= final_unsafe_angle t /\ final_unsafe_angle t <= hi)).

(** Among the headings [hs], in scan order, a run of consecutive safe
    headings starts at [a1] and is ended by the unsafe heading [u]. *)
Definition closed_run (hs : list (Q * bool)) (a1 u : Q) : Prop :=
  exists (before : list (Q * bool)) (arc : list Q) (rest : list (Q * bool)),
    hs = before ++ headings true (a1 :: arc) ++ (u, false) :: rest.

(** What the tracker holds after the headings [hs]: the recorded arc is the
    initial pair or a closed run of [hs]; and either no arc is open, or a
    run that reaches the end of [hs] is open, or a closed arc is pending. *)
Definition tracks (hs : list (Q * bool)) (t : Tracker) : Prop :=
  (recorded t = (0, 0) \/
   closed_run hs (final_safe_angle t) (final_unsafe_angle t)) /\
  ((first_safe_angle t = -1 /\ last_unsafe_angle t = -1) \/
   (is_unset (first_safe_angle t) = false /\ last_unsafe_angle t = -1 /\
    exists (before : list (Q * bool)) (arc : list Q),
      hs = before ++ headings true (first_safe_angle t :: arc)) \/
   (is_unset (first_safe_angle t) = false /\
    is_unset (last_unsafe_angle t) = false /\
    Qgt_bool (last_unsafe_angle t - first_safe_angle t)
             (final_unsafe_angle t - final_safe_angle t) = false)).

End FinderNotions.

(** ** gatherFreePoints *)

Module Gather.
Section Gather.

Variable fm : FloatMath.

(** [unsigned int] arithmetic wraps modulo 2^32. *)
Definition uint32_wrap (z : Z) : Z := (z mod 4294967296)%Z.

(** [i * resolution + origin.position.x], and the same for [j]. *)
Definition cell_x (costmap : Costmap) (i : Z) : Q :=
  inject_Z i * resolution costmap + origin_x costmap.
Definition cell_y (costmap : Costmap) (j : Z) : Q :=
  inject_Z j * resolution costmap + origin_y costmap.

(** [std::hypot (x - pose.x, y - pose.y) <= radius] *)
Definition within_radius (costmap : Costmap) (pose : Pose2D) (radius : Q)
    (i j : Z) : bool :=
  Qle_bool (fhypot fm (cell_x costmap i - pose_x pose)
                      (cell_y costmap j - pose_y pose)) radius.

(** [i + j * costmap.metadata.size_x] in [unsigned int]. *)
Definition cell_idx (costmap : Costmap) (i j : Z) : Z :=
  uint32_wrap (i + uint32_wrap (j * size_x costmap)).

(** The inner loop [for (unsigned int j = ...; j < size_y; j++)] with [n]
    iterations left; a point is the pair of its [x] and [y] (its [z] stays
    0).  The cell is read only when the first operand of [&&] holds, and a
    read past the end of [data] is undefined. *)
Fixpoint gather_j (costmap : Costmap) (pose : Pose2D) (radius : Q) (i : Z)
    (n : nat) (j : Z) (results : list (Q * Q)) : outcome (list (Q * Q)) :=
  match n with
  | O => Done results
  | S n' =>
      if within_radius costmap pose radius i j then
        match nth_error (data costmap) (Z.to_nat (cell_idx costmap i j)) with
        | Some v =>
            gather_j costmap pose radius i n' (j + 1)%Z
              (if (v =? 0)%Z
               then results ++ [(cell_x costmap i, cell_y costmap j)]
               else results)
        | None => Undefined
        end
      else gather_j costmap pose radius i n' (j + 1)%Z results
  end.

(** The outer loop [for (unsigned int i = ...; i < size_x; i++)] with [m]
    iterations left. *)
Fixpoint gather_i (costmap : Costmap) (pose : Pose2D) (radius : Q)
    (m : nat) (i : Z) (results : list (Q * Q)) : outcome (list (Q * Q)) :=
  match m with
  | O => Done results
  | S m' =>
      r <- gather_j costmap pose radius i (Z.to_nat (size_y costmap)) 0 results ;;
      gather_i costmap pose radius m' (i + 1)%Z r
  end.

(** [BackUpFreeSpace::gatherFreePoints] *)
Definition gatherFreePoints (costmap : Costmap) (pose : Pose2D) (radius : Q)
    : outcome (list (Q * Q)) :=
  gather_i costmap pose radius (Z.to_nat (size_x costmap)) 0 [].




End Gather.
End Gather.

(** ** Further objects and sweeps *)

(** ** One heading in single precision

    The classification of one candidate heading (lines 195-230) once more,
    this time with the arithmetic the compiled code performs: IEEE 754
    binary32 for [float] and binary64 for [double], each operation rounded to
    nearest-even in the type it is performed in (no extended precision, no
    fused multiply-add).  Values are [spec_float]s in the canonical form of
    their format.  The statements that depend on rounding -- which samples a
    ray takes, which of them pass the bounds tests, which cell is read -- are
    made on this model; the module [Finder] above is its idealisation over
    the rationals. *)

Module Single.

Definition float32 : Type := spec_float.
Definition float64 : Type := spec_float.

Definition add32 : float32 -> float32 -> float32 := SFadd 24 128.
Definition sub32 : float32 -> float32 -> float32 := SFsub 24 128.
Definition mul32 : float32 -> float32 -> float32 := SFmul 24 128.
Definition div32 : float32 -> float32 -> float32 := SFdiv 24 128.
Definition add64 : float64 -> float64 -> float64 := SFadd 53 1024.
Definition div64 : float64 -> float64 -> float64 := SFdiv 53 1024.

(** [double] to [float]: rounded, to an infinity beyond the range. *)
Definition narrow (d : float64) : float32 :=
  match d with
  | S754_finite s m e => binary_round 24 128 s m e
  | _ => d
  end.

(** [float] to [double]: exact. *)
Definition widen (f : float32) : float64 :=
  match f with
  | S754_finite s m e => binary_round 53 1024 s m e
  | _ => f
  end.

(** [int] to [float] and to [double]. *)
Definition float_of_int (z : Z) : float32 := binary_normalize 24 128 z 0 false.
Definition double_of_int (z : Z) : float64 := binary_normalize 53 1024 z 0 false.

(** [static_cast<int>] of a [float]: truncation toward zero, undefined when
    the value is not finite or the truncated value is not an [int]. *)
Definition int_of_float (f : float32) : option Z :=
  match f with
  | S754_zero _ => Some 0%Z
  | S754_finite s m e =>
      let magnitude :=
        match e with
        | Zneg p => (Zpos m / 2 ^ Zpos p)%Z
        | _ => (Zpos m * 2 ^ e)%Z
        end in
      int_checked (cond_Zopp s magnitude)
  | _ => None
  end.

(** The literal [0] of line 209. *)
Definition zero32 : float32 := S754_zero false.

(** The [float] and the [double] nearest to [n / d], for integers that are
    exact in the format. *)
Definition float_lit (n d : Z) : float32 := div32 (float_of_int n) (float_of_int d).
Definition double_lit (n d : Z) : float64 := div64 (double_of_int n) (double_of_int d).

(** [M_PI] again, as the [double] it is. *)
Definition M_PI64 : float64 := binary_normalize 53 1024 884279719003555 (-48) false.

(** The exact value of a finite float. *)
Definition Q_of_float (f : spec_float) : Q :=
  match f with
  | S754_finite s m e => inject_Z (cond_Zopp s (Zpos m)) * Qpower 2 e
  | _ => 0
  end.

(** [std::cos] and [std::sin] on [float]. *)
Record FloatLib : Type := {
  cosf : float32 -> float32;
  sinf : float32 -> float32
}.

(** [nav2_msgs::msg::Costmap] with the types of its fields: a [float32]
    resolution, a [float64] origin, [uint32] sizes, [uint8] cells. *)
Record Costmap : Type := {
  resolution : float32;
  origin_x : float64;
  origin_y : float64;
  size_x : Z;
  size_y : Z;
  data : list Z
}.

(** [geometry_msgs::msg::Pose2D]. *)
Record Pose2D : Type := {
  pose_x : float64;
  pose_y : float64;
  pose_theta : float64
}.

Section Heading.

Variable lib : FloatLib.

(** The locals of lines 195-204. *)
Definition local_origin_x (costmap : Costmap) : float32 := narrow (origin_x costmap).
Definition local_origin_y (costmap : Costmap) : float32 := narrow (origin_y costmap).
Definition local_size_x (costmap : Costmap) : Z := uint32_to_int (size_x costmap).
Definition local_size_y (costmap : Costmap) : Z := uint32_to_int (size_y costmap).
Definition map_min_x (costmap : Costmap) : float32 := local_origin_x costmap.
Definition map_max_x (costmap : Costmap) : float32 :=
  add32 (local_origin_x costmap)
        (mul32 (float_of_int (local_size_x costmap)) (resolution costmap)).
Definition map_min_y (costmap : Costmap) : float32 := local_origin_y costmap.
Definition map_max_y (costmap : Costmap) : float32 :=
  add32 (local_origin_y costmap)
        (mul32 (float_of_int (local_size_y costmap)) (resolution costmap)).

(** The test of line 213. *)
Definition bounds_test (costmap : Costmap) (x y : float32) : bool :=
  SFleb (map_min_x costmap) x && SFleb x (map_max_x costmap) &&
  SFleb (map_min_y costmap) y && SFleb y (map_max_y costmap).

(** Lines 214 and 215. *)
Definition cell_i (costmap : Costmap) (x : float32) : option Z :=
  int_of_float (div32 (sub32 x (local_origin_x costmap)) (resolution costmap)).
Definition cell_j (costmap : Costmap) (y : float32) : option Z :=
  int_of_float (div32 (sub32 y (local_origin_y costmap)) (resolution costmap)).

(** The test of line 217. *)
Definition index_test (costmap : Costmap) (i j : Z) : bool :=
  ((0 <=? i) && (i <? local_size_x costmap) &&
   (0 <=? j) && (j <? local_size_y costmap))%Z.

(** [costmap.data[i + j * size_x]]: [int] arithmetic, an unchecked read. *)
Definition read_cell (costmap : Costmap) (i j : Z) : outcome Z :=
  match int_checked (j * local_size_x costmap) with
  | Some jw =>
      match int_checked (i + jw) with
      | Some idx =>
          match nth_error (data costmap) (Z.to_nat idx) with
          | Some v => Done v
          | None => Undefined
          end
      | None => Undefined
      end
  | None => Undefined
  end.

(** The body of the ray loop for the sample point [(x, y)]: [Done true] when
    the loop goes on to the next sample, [Done false] when it sets
    [is_safe = false] and breaks. *)
Definition sample_safe (costmap : Costmap) (x y : float32) : outcome bool :=
  if bounds_test costmap x y then
    match cell_i costmap x, cell_j costmap y with
    | Some i, Some j =>
        if index_test costmap i j then
          v <- read_cell costmap i j ;;
          Done (negb (Finder.is_lethal v))
        else Done false
    | _, _ => Undefined
    end
  else Done false.

(** [float x = pose.x + r * std::cos(angle)]: the product in [float], the
    sum in [double], the result narrowed to [float]; and so for [y]. *)
Definition ray_x (pose : Pose2D) (angle r : float32) : float32 :=
  narrow (add64 (pose_x pose) (widen (mul32 r (cosf lib angle)))).
Definition ray_y (pose : Pose2D) (angle r : float32) : float32 :=
  narrow (add64 (pose_y pose) (widen (mul32 r (sinf lib angle)))).

(** [for (float r = 0; r <= radius; r += resolution)] with its breaks, from
    the value [r] on; the result is the final [is_safe]. *)
Fixpoint ray_loop (costmap : Costmap) (pose : Pose2D) (radius angle : float32)
    (fuel : nat) (r : float32) : outcome bool :=
  match fuel with
  | O => OutOfFuel
  | S fuel' =>
      if SFleb r radius then
        ok <- sample_safe costmap (ray_x pose angle r) (ray_y pose angle r) ;;
        if ok then
          ray_loop costmap pose radius angle fuel' (add32 r (resolution costmap))
        else Done false
      else Done true
  end.

(** [is_safe] of one candidate heading; [fuel] bounds the number of tests
    of the loop condition. *)
Definition heading_safe (fuel : nat) (costmap : Costmap) (pose : Pose2D)
    (radius angle : float32) : outcome bool :=
  ray_loop costmap pose radius angle fuel zero32.

(** *** Notions the statements use *)

(** The value of [r] after [k] executions of [r += resolution]. *)
Fixpoint nth_radius (costmap : Costmap) (k : nat) (r : float32) : float32 :=
  match k with
  | O => r
  | S k' => nth_radius costmap k' (add32 r (resolution costmap))
  end.

(** The [k]-th sample point of the ray at [angle], counted from 0. *)
Definition sample_x (costmap : Costmap) (pose : Pose2D) (angle : float32)
    (k : nat) : float32 :=
  ray_x pose angle (nth_radius costmap k zero32).
Definition sample_y (costmap : Costmap) (pose : Pose2D) (angle : float32)
    (k : nat) : float32 :=
  ray_y pose angle (nth_radius costmap k zero32).

(** The loop condition holds for the samples 0 to [k]. *)
Definition within_radius (costmap : Costmap) (radius : float32) (k : nat) : Prop :=
  forall i : nat, (i <= k)%nat ->
    SFleb (nth_radius costmap i zero32) radius = true.

(** The sample point fails the test of line 213 or that of line 217: the
    code takes it to be off the grid. *)
Definition off_grid (costmap : Costmap) (x y : float32) : bool :=
  negb (bounds_test costmap x y) ||
  match cell_i costmap x, cell_j costmap y with
  | Some i, Some j => negb (index_test costmap i j)
  | _, _ => false
  end.

(** The sample point passes both tests and reads the cell value [v]. *)
Definition reads (costmap : Costmap) (x y : float32) (v : Z) : Prop :=
  bounds_test costmap x y = true /\
  exists i j : Z,
    cell_i costmap x = Some i /\ cell_j costmap y = Some j /\
    index_test costmap i j = true /\
    read_cell costmap i j = Done v.

End Heading.

(** The headings the loop of line 206 visits, as long as they are at most
    [fuel]. *)
Fixpoint sweep_angles (fuel : nat) (end_angle angle_increment angle : float32)
    : list float32 :=
  match fuel with
  | O => []
  | S fuel' =>
      if SFleb angle end_angle then
        angle :: sweep_angles fuel' end_angle angle_increment
                   (add32 angle angle_increment)
      else []
  end.

Definition run_end_angle : float32 := narrow M_PI64.

End Single.

(** A [float] instance of the library: the rational cosine and sine above,
    rounded to [float]. *)
Module Approx32.

Definition float_of_Q (q : Q) : Single.float32 :=
  binary_normalize 24 128 (Qfloor (q * Qpower 2 80)) (-80) false.

Definition through (f : Q -> Q) (a : Single.float32) : Single.float32 :=
  match a with
  | S754_nan | S754_infinity _ => S754_nan
  | _ => float_of_Q (f (Single.Q_of_float a))
  end.

Definition float_lib : Single.FloatLib :=
  {| Single.cosf := through Approx.cosq; Single.sinf := through Approx.sinq |}.

End Approx32.

(** Grids and poses for the single-precision model. *)
Module SingleExamples.
Import Single.

(** [n] by [n] cells of size [res], the corner at [(origin, origin)]. *)
Definition square_grid (res : float32) (n : Z) (origin : float64)
    (cells : list Z) : Costmap :=
  {| resolution := res; origin_x := origin; origin_y := origin;
     size_x := n; size_y := n; data := cells |}.

Definition pose_at (x y : float64) : Pose2D :=
  {| pose_x := x; pose_y := y; pose_theta := S754_zero false |}.

(** Three by three free cells of one metre from the origin, the robot at
    the centre. *)
Definition free3 : Costmap :=
  square_grid (float_of_int 1) 3 (S754_zero false) (repeat 0%Z 9).
Definition centre : Pose2D := pose_at (double_lit 3 2) (double_lit 3 2).

(** Fifteen by fifteen free cells of 0.2f metres from the origin. *)
Definition fine15 : Costmap :=
  square_grid (float_lit 1 5) 15 (S754_zero false) (repeat 0%Z 225).

(** Three by three free cells of one metre whose corner is at the [double]
    0.7 in both directions, and a pose just left of that corner, at the
    [double] 0.69999999. *)
Definition offset3 : Costmap :=
  square_grid (float_of_int 1) 3 (double_lit 7 10) (repeat 0%Z 9).
Definition left_of_corner : Pose2D :=
  pose_at (double_lit 69999999 100000000) (double_lit 3 2).

(** A pose on that grid, one metre right of the former, at the [double]
    1.69999999. *)
Definition near_corner : Pose2D :=
  pose_at (double_lit 169999999 100000000) (double_lit 3 2).

End SingleExamples.

(** ** Further notions about the run *)

Module BehaviorNotions.
Import Behavior.

(** The service is there at wait number [n] (counted from 0), after [n]
    waits that timed out with the process still running; [fuel] bounds the
    number of waits followed. *)
Definition service_after (env : RunEnv) (fuel n : nat) : Prop :=
  (n < fuel)%nat /\
  (forall i, (i < n)%nat ->
     service_ready env i = false /\ rclcpp_ok env i = true) /\
  service_ready env n = true.

End BehaviorNotions.

Module MoreExamples.



(** Every cell lethal but (2,0) and the centre: of the headings -2, -1, 0,
    1, 2, 3 only -1 is safe. *)
Definition only_minus_one : Costmap :=
  Examples.grid3 [254; 254; 0; 254; 0; 254; 254; 254; 254]%Z.

(** Cell values 0, 1, 252, 253 in the first row, 0 elsewhere. *)
Definition graded : Costmap :=
  Examples.grid3 [0; 1; 252; 0; 0; 0; 253; 0; 0]%Z.

(** The service shows up at the second wait; the response and both pose
    lookups arrive. *)
Definition ready_at_second_wait (costmap : Costmap) : Behavior.RunEnv :=
  {| Behavior.service_ready := fun n => (0 <? n)%nat;
     Behavior.rclcpp_ok := fun _ => true;
     Behavior.costmap_response := Some costmap;
     Behavior.pose_lookup_1 :=
       Some {| position_x := 3 # 2; position_y := 3 # 2; yaw := 0 |};
     Behavior.pose_lookup_2 :=
       Some {| position_x := 8 # 5; position_y := 3 # 2; yaw := 0 |};
     Behavior.run_now := 1000000000 |}.

(** The same with another response and other pose lookups. *)
Definition with_lookups (env : Behavior.RunEnv) (response : option Costmap)
    (lookup_1 lookup_2 : option PoseStamped) : Behavior.RunEnv :=
  {| Behavior.service_ready := Behavior.service_ready env;
     Behavior.rclcpp_ok := Behavior.rclcpp_ok env;
     Behavior.costmap_response := response;
     Behavior.pose_lookup_1 := lookup_1;
     Behavior.pose_lookup_2 := lookup_2;
     Behavior.run_now := Behavior.run_now env |}.

(** [Examples.configured] cleaned up and configured again with the default
    parameters ([visualize] off), and configured again without the cleanup. *)
Definition configured_quiet : BackUpFreeSpace :=
  Eval cbv in
    match Behavior.onConfigure (Behavior.onCleanup Examples.configured)
            (Some Behavior.no_overrides) with
    | Some self => self
    | None => Examples.constructed
    end.

Definition reconfigured_quiet : BackUpFreeSpace :=
  Eval cbv in
    match Behavior.onConfigure Examples.configured (Some Behavior.no_overrides) with
    | Some self => self
    | None => Examples.constructed
    end.

Definition at_centre : PoseStamped :=
  {| position_x := 3 # 2; position_y := 3 # 2; yaw := 0 |}.

(** The object as [onConfigure] leaves the constructed one when no parameter
    is overridden: [visualize] is off and no marker publisher exists. *)
Definition default_configured : BackUpFreeSpace :=
  Eval cbv in
    match Behavior.onConfigure Examples.constructed (Some Behavior.no_overrides) with
    | Some self => self
    | None => Examples.constructed
    end.

End MoreExamples.

(** * Facts *)

(** ** Comparisons and loops over the rationals *)

Lemma Qle_bool_false (a b : Q) : Qle_bool a b = false <-> b < a.
Proof.
  split; intro H.
  - apply Qnot_le_lt. intro Hle. apply Qle_bool_iff in Hle. congruence.
  - destruct (Qle_bool a b) eqn:E; trivial.
    apply Qle_bool_iff in E. exfalso. apply (Qlt_not_le _ _ H E).
Qed.

Lemma Qlt_bool_iff (a b : Q) : Qlt_bool a b = true <-> a < b.
Proof.
  unfold Qlt_bool. rewrite negb_true_iff. apply Qle_bool_false.
Qed.


Lemma nth_step_eq (x inc : Q) (k : nat) :
  nth_step x inc k == x + inject_Z (Z.of_nat k) * inc.
Proof.
  revert x. induction k as [|k IH]; intro x.
  - simpl. unfold inject_Z. ring.
  - cbn [nth_step]. rewrite IH, Nat2Z.inj_succ. unfold Z.succ.
    rewrite inject_Z_plus. ring.
Qed.

Lemma exits_step (x bound inc : Q) (fuel : nat) :
  x <= bound -> exits x bound inc (S fuel) -> exits (x + inc) bound inc fuel.
Proof.
  intros Hle (n & Hn & Hgt). destruct n as [|n].
  - simpl in Hgt. exfalso. apply (Qlt_not_le _ _ Hgt Hle).
  - exists n. split; [lia | exact Hgt].
Qed.

Lemma exits_zero (x bound inc : Q) : ~ exits x bound inc 0.
Proof. intros (n & Hn & _). lia. Qed.

Lemma loop_fuel_exits (x bound inc : Q) :
  0 < inc -> exits x bound inc (loop_fuel x bound inc).
Proof.
  intro Hinc. unfold loop_fuel.
  destruct (Qle_bool x bound) eqn:Hxb.
  - assert (Hi : Qle_bool inc 0 = false) by (apply Qle_bool_false; exact Hinc).
    rewrite Hi. apply Qle_bool_iff in Hxb.
    set (q := (bound - x) / inc).
    assert (Hq : 0 <= q).
    { unfold q. apply Qle_shift_div_l; [exact Hinc | lra]. }
    assert (Hf : (0 <= Qfloor q)%Z).
    { apply Qfloor_resp_le in Hq. exact Hq. }
    exists (Z.to_nat (Qfloor q) + 1)%nat. split; [lia |].
    rewrite nth_step_eq.
    replace (Z.of_nat (Z.to_nat (Qfloor q) + 1)) with (Qfloor q + 1)%Z by lia.
    pose proof (Qlt_floor q) as Hlt.
    assert (Hmul : q * inc < inject_Z (Qfloor q + 1) * inc).
    { apply Qmult_lt_compat_r; assumption. }
    assert (Hqi : q * inc == bound - x).
    { unfold q. field. intro H0. rewrite H0 in Hinc. apply (Qlt_irrefl _ Hinc). }
    rewrite Hqi in Hmul. lra.
  - exists 0%nat. split; [lia |]. simpl. apply Qle_bool_false. exact Hxb.
Qed.

(** ** The arc tracker and the sweep *)

Module FinderFacts.
Import Finder.

Section Tracker.

Lemma tracker_init_settled : settled tracker_init.
Proof. left. reflexivity. Qed.

Lemma tracker_init_no_open_arc : no_open_arc tracker_init.
Proof. reflexivity. Qed.

(** An unsafe heading met while no arc is open changes nothing. *)
Lemma track_step_unsafe_idle (a : Q) (t : Tracker) :
  no_open_arc t -> track_step a false t = t.
Proof.
  unfold no_open_arc. destruct t as [f l fs fu]. cbn [first_safe_angle].
  intro H. unfold track_step. cbn [first_safe_angle last_unsafe_angle
    final_safe_angle final_unsafe_angle andb negb].
  rewrite H. cbn [negb andb]. rewrite andb_false_r. reflexivity.
Qed.

(** A safe heading never records an arc. *)
Lemma track_step_safe_recorded (a : Q) (t : Tracker) :
  settled t ->
  recorded (track_step a true t) = recorded t /\ settled (track_step a true t).
Proof.
  destruct t as [f l fs fu]. unfold settled, recorded, track_step.
  cbn [first_safe_angle last_unsafe_angle final_safe_angle final_unsafe_angle
       andb negb].
  intros [Hl | [Hf Hw]].
  - rewrite Hl. cbn [negb]. rewrite andb_false_r.
    cbn [first_safe_angle last_unsafe_angle final_safe_angle final_unsafe_angle].
    split; [reflexivity | left; exact Hl].
  - rewrite Hf. cbn [andb]. rewrite Hw. cbn [andb].
    cbn [first_safe_angle last_unsafe_angle final_safe_angle final_unsafe_angle].
    split; [reflexivity | right; split; assumption].
Qed.

Lemma track_step_settled (a : Q) (b : bool) (t : Tracker) :
  settled t -> settled (track_step a b t).
Proof.
  destruct b; [intro H; apply (track_step_safe_recorded a t H) |].
  destruct t as [f l fs fu]. unfold settled, track_step.
  cbn [first_safe_angle last_unsafe_angle final_safe_angle final_unsafe_angle
       andb negb].
  intros [Hl | [Hf Hw]].
  - rewrite Hl, andb_true_r.
    destruct (is_unset f) eqn:Hf; cbn [negb].
    + rewrite Hl. cbn [negb]. rewrite andb_false_r.
      left. exact Hl.
    + destruct (is_unset a) eqn:Ha; cbn [negb]; rewrite ?andb_false_r, ?andb_true_r.
      * left. exact Ha.
      * destruct (Qgt_bool (a - f) (fu - fs)) eqn:Hw.
        -- left. reflexivity.
        -- right. cbn [first_safe_angle last_unsafe_angle final_safe_angle
             final_unsafe_angle]. split; assumption.
  - rewrite Hf. cbn [negb andb].
    destruct (is_unset l) eqn:El.
    + (* the sentinel sits in last_unsafe_angle although an arc is open *)
      destruct (is_unset a) eqn:Ha; cbn [negb]; rewrite ?andb_false_r, ?andb_true_r.
      * left. exact Ha.
      * destruct (Qgt_bool (a - f) (fu - fs)) eqn:Hw'.
        -- left. reflexivity.
        -- right. cbn [first_safe_angle last_unsafe_angle final_safe_angle
             final_unsafe_angle]. split; assumption.
    + rewrite Hw. cbn [andb]. right.
      cbn [first_safe_angle last_unsafe_angle final_safe_angle final_unsafe_angle].
      split; assumption.
Qed.

End Tracker.

Section Sweep.

Variable fm : FloatMath.
Variable costmap : Costmap.
Variable pose : Pose2D.
Variable radius : Q.
Variable inc : Q.

Local Notation "'hs'" := (heading_safe fm costmap pose radius).
Local Notation "'loop'" :=
  (fun end_angle => sweep_loop fm costmap pose end_angle radius inc).

Lemma map_repeat_Forall (v : outcome bool) (l : list Q) (n : nat) :
  map hs l = repeat v n -> Forall (fun x => hs x = v) l.
Proof.
  revert n. induction l as [|x l IH]; intros n H; [constructor |].
  destruct n as [|n]; [discriminate |].
  cbn [map repeat] in H. injection H as Hx Hl.
  constructor; [exact Hx | exact (IH n Hl)].
Qed.

(** A sweep that meets unsafe headings only leaves the tracker as it was. *)
Lemma sweep_all_unsafe (end_angle : Q) (fuel : nat) :
  forall (a : Q) (t : Tracker),
    exits a end_angle inc fuel ->
    no_open_arc t ->
    Forall (fun x => hs x = Done false) (angles_from end_angle inc fuel a) ->
    loop end_angle fuel a t = Done t.
Proof.
  induction fuel as [|fuel IH]; intros a t Hex Hno Hall.
  - destruct (exits_zero _ _ _ Hex).
  - cbn [sweep_loop angles_from] in *.
    destruct (Qle_bool a end_angle) eqn:Hle; [| reflexivity].
    inversion Hall as [| x l Hx Hl]; subst.
    rewrite Hx. cbn [bind]. rewrite (track_step_unsafe_idle a t Hno).
    apply IH; try assumption.
    apply exits_step; [apply Qle_bool_iff; exact Hle | exact Hex].
Qed.

(** A run of safe headings up to the end of the sweep records nothing. *)
Lemma sweep_trailing_safe (end_angle : Q) (fuel : nat) :
  forall (a : Q) (t : Tracker),
    exits a end_angle inc fuel ->
    settled t ->
    Forall (fun x => hs x = Done true) (angles_from end_angle inc fuel a) ->
    exists t', loop end_angle fuel a t = Done t' /\ recorded t' = recorded t.
Proof.
  induction fuel as [|fuel IH]; intros a t Hex Hst Hall.
  - destruct (exits_zero _ _ _ Hex).
  - cbn [sweep_loop angles_from] in *.
    destruct (Qle_bool a end_angle) eqn:Hle; [| exists t; split; reflexivity].
    inversion Hall as [| x l Hx Hl]; subst.
    rewrite Hx. cbn [bind].
    destruct (track_step_safe_recorded a t Hst) as [Hrec Hst'].
    destruct (IH (a + inc) (track_step a true t)) as (t' & Hrun & Hrec');
      try assumption.
    + apply exits_step; [apply Qle_bool_iff; exact Hle | exact Hex].
    + exists t'. split; [exact Hrun | congruence].
Qed.

(** Unsafe headings first, safe headings from then on: nothing is recorded. *)
Lemma sweep_unsafe_then_safe (end_angle : Q) (fuel : nat) :
  forall (m n : nat) (a : Q) (t : Tracker),
    exits a end_angle inc fuel ->
    no_open_arc t -> settled t ->
    map hs (angles_from end_angle inc fuel a)
      = repeat (Done false) m ++ repeat (Done true) n ->
    exists t', loop end_angle fuel a t = Done t' /\ recorded t' = recorded t.
Proof.
  induction fuel as [|fuel IH]; intros m n a t Hex Hno Hst Hmap.
  - destruct (exits_zero _ _ _ Hex).
  - destruct m as [|m].
    + apply sweep_trailing_safe; try assumption.
      apply (map_repeat_Forall _ _ n). exact Hmap.
    + cbn [sweep_loop angles_from] in *.
      destruct (Qle_bool a end_angle) eqn:Hle; [| exists t; split; reflexivity].
      cbn [map repeat app] in Hmap. injection Hmap as Hx Hl.
      rewrite Hx. cbn [bind]. rewrite (track_step_unsafe_idle a t Hno).
      apply (IH m n); try assumption.
      apply exits_step; [apply Qle_bool_iff; exact Hle | exact Hex].
Qed.

Lemma angles_from_ge (end_angle : Q) (fuel : nat) :
  0 <= inc ->
  forall a, Forall (fun x => a <= x) (angles_from end_angle inc fuel a).
Proof.
  intro Hinc. induction fuel as [|fuel IH]; intro a; cbn [angles_from].
  - constructor.
  - destruct (Qle_bool a end_angle); constructor; [apply Qle_refl |].
    eapply Forall_impl; [| apply (IH (a + inc))].
    cbn beta. intros x Hx. lra.
Qed.

(** Headings beyond [end'] that are all safe do not change what the sweep
    records: the sweep up to [end_angle] records what the sweep up to
    [end'] does. *)
Lemma sweep_cut (end' end_angle : Q) (fuel' : nat) :
  0 < inc -> end' <= end_angle ->
  forall (fuel : nat) (a : Q) (t : Tracker),
    exits a end' inc fuel' ->
    exits a end_angle inc fuel ->
    settled t ->
    Forall (fun x => Qlt_bool end' x = true -> hs x = Done true)
           (angles_from end_angle inc fuel a) ->
    (t1 <- loop end_angle fuel a t ;; Done (recorded t1))
    = (t2 <- loop end' fuel' a t ;; Done (recorded t2)).
Proof.
  intros Hinc Hends.
  induction fuel' as [|fuel' IH]; intros fuel a t Hex' Hex Hst Hall.
  - destruct (exits_zero _ _ _ Hex').
  - destruct fuel as [|fuel]; [destruct (exits_zero _ _ _ Hex) |].
    cbn [sweep_loop].
    destruct (Qle_bool a end') eqn:Hle'.
    + assert (Hle : Qle_bool a end_angle = true).
      { apply Qle_bool_iff. apply Qle_bool_iff in Hle'. lra. }
      rewrite Hle. cbn [angles_from] in Hall. rewrite Hle in Hall.
      inversion Hall as [| x l _ Hl]; subst.
      destruct (hs a) as [b | |]; cbn [bind]; try reflexivity.
      apply IH; try assumption.
      * apply exits_step; [apply Qle_bool_iff; exact Hle' | exact Hex'].
      * apply exits_step; [apply Qle_bool_iff; exact Hle | exact Hex].
      * apply track_step_settled. exact Hst.
    + cbn [bind].
      destruct (sweep_trailing_safe end_angle (S fuel) a t Hex Hst)
        as (t' & Hrun & Hrec).
      * apply Qle_bool_false in Hle'.
        pose proof (angles_from_ge end_angle (S fuel) (Qlt_le_weak _ _ Hinc) a)
          as Hge.
        rewrite Forall_forall in *. intros x Hx. apply (Hall x Hx).
        apply Qlt_bool_iff. specialize (Hge x Hx). cbn beta in Hge. lra.
      * cbn [sweep_loop] in Hrun. rewrite Hrun. cbn [bind]. rewrite Hrec.
        reflexivity.
Qed.

End Sweep.

Section Ray.

Lemma uint32_to_int_small (u : Z) :
  (0 <= u <= INT_MAX)%Z -> uint32_to_int u = u.
Proof.
  unfold uint32_to_int, INT_MAX. intro H.
  rewrite Z.mod_small by lia. lia.
Qed.

Lemma Qtrunc_nonneg (q : Q) : 0 <= q -> Qtrunc q = Qfloor q.
Proof.
  destruct q as [n d]. unfold Qle, Qtrunc, Qfloor. cbn [Qnum Qden].
  intro H. apply Z.quot_div_nonneg; lia.
Qed.

(** The ray loop's body is the lethal test on the cell the sample reads. *)
Lemma sample_safe_cell (costmap : Costmap) (x y : Q) :
  sample_safe costmap x y
  = (c <- sample_cell costmap x y ;;
     Done (match c with
           | Some v => negb (is_lethal v)
           | None => false
           end)).
Proof.
  unfold sample_safe, sample_cell.
  repeat match goal with
         | |- context [if ?b then _ else _] => destruct b
         | |- context [match ?o with Some _ => _ | None => _ end] => destruct o
         end; reflexivity.
Qed.

(** A quotient the bounds test let through truncates to a cell index
    between 0 and the size. *)
Lemma cast_in_box (x o res : Q) (size : Z) :
  0 < res -> (0 <= size <= INT_MAX)%Z ->
  o <= x -> x <= o + inject_Z size * res ->
  exists i, static_cast_int (fdiv (x - o) res) = Some i /\
            (0 <= i <= size)%Z /\
            ((i < size)%Z -> x < o + inject_Z size * res).
Proof.
  intros Hres Hsize Hlo Hhi. unfold fdiv.
  assert (Hne : Qeq_bool res 0 = false).
  { destruct (Qeq_bool res 0) eqn:E; trivial.
    apply Qeq_bool_iff in E. rewrite E in Hres. discriminate. }
  rewrite Hne. cbn [static_cast_int].
  set (q := (x - o) / res).
  assert (Hq0 : 0 <= q) by (unfold q; apply Qle_shift_div_l; [exact Hres | lra]).
  assert (Hq1 : q <= inject_Z size) by (unfold q; apply Qle_shift_div_r; [exact Hres | lra]).
  rewrite (Qtrunc_nonneg q Hq0).
  assert (Hf0 : (0 <= Qfloor q)%Z) by (apply Qfloor_resp_le in Hq0; exact Hq0).
  assert (Hf1 : (Qfloor q <= size)%Z).
  { apply Qfloor_resp_le in Hq1. rewrite Qfloor_Z in Hq1. exact Hq1. }
  assert (Hrange : ((INT_MIN <=? Qfloor q) && (Qfloor q <=? INT_MAX))%Z = true).
  { unfold INT_MIN, INT_MAX in *. apply andb_true_intro; split; apply Z.leb_le; lia. }
  rewrite Hrange. exists (Qfloor q). split; [reflexivity |]. split; [lia |].
  intro Hlt.
  assert (Hq2 : q < inject_Z size).
  { apply Qlt_le_trans with (inject_Z (Qfloor q + 1)); [apply Qlt_floor |].
    rewrite <- Zle_Qle. lia. }
  assert (Hm : q * res < inject_Z size * res) by (apply Qmult_lt_compat_r; assumption).
  assert (Hqr : q * res == x - o).
  { unfold q. field. intro H0. rewrite H0 in Hres. discriminate. }
  rewrite Hqr in Hm. lra.
Qed.

(** On a well-formed costmap reading a sample is always defined. *)
Lemma sample_cell_wf (costmap : Costmap) (x y : Q) :
  wf_costmap costmap ->
  exists c, sample_cell costmap x y = Done c.
Proof.
  intros ((Hres & Hsx & Hsy) & Hprod & Hlen).
  unfold sample_cell, map_min_x, map_max_x, map_min_y, map_max_y, isize_x, isize_y.
  rewrite (uint32_to_int_small _ Hsx), (uint32_to_int_small _ Hsy).
  destruct (Qle_bool (origin_x costmap) x &&
            Qle_bool x (origin_x costmap + inject_Z (size_x costmap) * resolution costmap) &&
            Qle_bool (origin_y costmap) y &&
            Qle_bool y (origin_y costmap + inject_Z (size_y costmap) * resolution costmap))
    eqn:Hbox; [| exists None; reflexivity].
  apply andb_true_iff in Hbox. destruct Hbox as [Hbox Hy1].
  apply andb_true_iff in Hbox. destruct Hbox as [Hbox Hy0].
  apply andb_true_iff in Hbox. destruct Hbox as [Hx0 Hx1].
  apply Qle_bool_iff in Hx0, Hx1, Hy0, Hy1.
  destruct (cast_in_box x _ _ _ Hres Hsx Hx0 Hx1) as (i & Hi & Hir & _).
  destruct (cast_in_box y _ _ _ Hres Hsy Hy0 Hy1) as (j & Hj & Hjr & _).
  rewrite Hi, Hj.
  destruct ((0 <=? i) && (i <? size_x costmap) &&
            (0 <=? j) && (j <? size_y costmap))%Z eqn:Hidx;
    [| exists None; reflexivity].
  apply andb_true_iff in Hidx. destruct Hidx as [Hidx Hj1].
  apply andb_true_iff in Hidx. destruct Hidx as [Hidx _].
  apply andb_true_iff in Hidx. destruct Hidx as [_ Hi1].
  apply Z.ltb_lt in Hi1, Hj1.
  assert (Hjw : (0 <= j * size_x costmap)%Z) by nia.
  assert (Hjw' : (i + j * size_x costmap < size_x costmap * size_y costmap)%Z) by nia.
  unfold int_checked.
  assert (R1 : ((INT_MIN <=? j * size_x costmap) &&
                (j * size_x costmap <=? INT_MAX))%Z = true).
  { unfold INT_MIN, INT_MAX in *. apply andb_true_intro; split; apply Z.leb_le; lia. }
  assert (R2 : ((INT_MIN <=? i + j * size_x costmap) &&
                (i + j * size_x costmap <=? INT_MAX))%Z = true).
  { unfold INT_MIN, INT_MAX in *. apply andb_true_intro; split; apply Z.leb_le; lia. }
  rewrite R1, R2.
  destruct (nth_error (data costmap) (Z.to_nat (i + j * size_x costmap))) as [v|] eqn:Hnth.
  - exists (Some v). reflexivity.
  - exfalso. apply nth_error_None in Hnth. lia.
Qed.

Lemma sample_safe_wf (costmap : Costmap) (x y : Q) :
  wf_costmap costmap -> exists b, sample_safe costmap x y = Done b.
Proof.
  intro Hwf. rewrite sample_safe_cell.
  destruct (sample_cell_wf costmap x y Hwf) as (c & Hc).
  rewrite Hc. cbn [bind]. eexists. reflexivity.
Qed.

Variable fm : FloatMath.

End Ray.

Section Definedness.

Variable fm : FloatMath.
Variable costmap : Costmap.
Variable pose : Pose2D.
Variable radius : Q.
Hypothesis Hwf : wf_costmap costmap.

Lemma ray_loop_wf (angle : Q) (fuel : nat) :
  forall r : Q,
    exits r radius (resolution costmap) fuel ->
    exists b, ray_loop fm costmap pose radius angle fuel r = Done b.
Proof.
  induction fuel as [|fuel IH]; intros r Hex.
  - destruct (exits_zero _ _ _ Hex).
  - cbn [ray_loop]. destruct (Qle_bool r radius) eqn:Hle;
      [| exists true; reflexivity].
    destruct (sample_safe_wf costmap (ray_x fm pose angle r)
                (ray_y fm pose angle r) Hwf) as (b & Hs).
    rewrite Hs. cbn [bind]. destruct b; [| exists false; reflexivity].
    apply IH. apply exits_step; [apply Qle_bool_iff; exact Hle | exact Hex].
Qed.

Lemma heading_safe_wf (angle : Q) :
  exists b, heading_safe fm costmap pose radius angle = Done b.
Proof.
  unfold heading_safe. apply ray_loop_wf. apply loop_fuel_exits.
  destruct Hwf as ((Hres & _) & _). exact Hres.
Qed.

Lemma sweep_loop_wf (end_angle inc : Q) (fuel : nat) :
  forall (a : Q) (t : Tracker),
    exits a end_angle inc fuel ->
    exists t', sweep_loop fm costmap pose end_angle radius inc fuel a t = Done t'.
Proof.
  induction fuel as [|fuel IH]; intros a t Hex.
  - destruct (exits_zero _ _ _ Hex).
  - cbn [sweep_loop]. destruct (Qle_bool a end_angle) eqn:Hle;
      [| exists t; reflexivity].
    destruct (heading_safe_wf a) as (b & Hb). rewrite Hb. cbn [bind].
    apply IH. apply exits_step; [apply Qle_bool_iff; exact Hle | exact Hex].
Qed.

End Definedness.

Section Termination.

Variable fm : FloatMath.
Variable costmap : Costmap.
Variable pose : Pose2D.
Variable radius : Q.

(** With a resolution that is not positive no sample lets the ray loop go
    on: the bounds tests or the conversion to [int] stop it. *)
Lemma sample_safe_degenerate (x y : Q) :
  resolution costmap <= 0 -> sample_safe costmap x y <> Done true.
Proof.
  intros Hres H. unfold sample_safe in H.
  destruct (Qle_bool (map_min_x costmap) x && Qle_bool x (map_max_x costmap) &&
            Qle_bool (map_min_y costmap) y && Qle_bool y (map_max_y costmap))
    eqn:Hbox; [| discriminate].
  unfold fdiv in H.
  destruct (Qeq_bool (resolution costmap) 0) eqn:Hz; [discriminate |].
  apply Qeq_bool_neq in Hz.
  cbn [static_cast_int] in H.
  destruct ((INT_MIN <=? Qtrunc ((x - origin_x costmap) / resolution costmap)) &&
            (Qtrunc ((x - origin_x costmap) / resolution costmap) <=? INT_MAX))%Z;
    [| discriminate].
  destruct ((INT_MIN <=? Qtrunc ((y - origin_y costmap) / resolution costmap)) &&
            (Qtrunc ((y - origin_y costmap) / resolution costmap) <=? INT_MAX))%Z;
    [| discriminate].
  destruct ((0 <=? Qtrunc ((x - origin_x costmap) / resolution costmap)) &&
            (Qtrunc ((x - origin_x costmap) / resolution costmap) <? isize_x costmap) &&
            (0 <=? Qtrunc ((y - origin_y costmap) / resolution costmap)) &&
            (Qtrunc ((y - origin_y costmap) / resolution costmap) <? isize_y costmap))%Z
    eqn:Hidx; [| discriminate].
  clear H.
  apply andb_true_iff in Hidx. destruct Hidx as [Hidx _].
  apply andb_true_iff in Hidx. destruct Hidx as [Hidx _].
  apply andb_true_iff in Hidx. destruct Hidx as [Hi0 Hi1].
  apply Z.leb_le in Hi0. apply Z.ltb_lt in Hi1.
  apply andb_true_iff in Hbox. destruct Hbox as [Hbox _].
  apply andb_true_iff in Hbox. destruct Hbox as [Hbox _].
  apply andb_true_iff in Hbox. destruct Hbox as [Hx0 Hx1].
  apply Qle_bool_iff in Hx0, Hx1. unfold map_min_x, map_max_x in *.
  assert (Hneg : resolution costmap < 0).
  { apply Qle_lt_or_eq in Hres. destruct Hres as [Hlt | Heq];
      [exact Hlt | contradiction]. }
  assert (Hone : 1 <= inject_Z (isize_x costmap)).
  { change 1 with (inject_Z 1). rewrite <- Zle_Qle. lia. }
  assert (Hprod : inject_Z (isize_x costmap) * resolution costmap
                  <= 1 * resolution costmap).
  { setoid_replace (inject_Z (isize_x costmap) * resolution costmap)
      with (- (inject_Z (isize_x costmap) * - resolution costmap)) by ring.
    setoid_replace (1 * resolution costmap)
      with (- (1 * - resolution costmap)) by ring.
    apply Qopp_le_compat. apply Qmult_le_compat_r; [exact Hone | lra]. }
  lra.
Qed.

Lemma sample_safe_no_fuel (x y : Q) : sample_safe costmap x y <> OutOfFuel.
Proof.
  unfold sample_safe.
  repeat match goal with
         | |- context [if ?b then _ else _] => destruct b
         | |- context [match ?o with Some _ => _ | None => _ end] => destruct o
         end; discriminate.
Qed.

(** The ray loop of [heading_safe] is never cut short by its fuel. *)
Lemma ray_loop_exits_total (angle : Q) (fuel : nat) :
  forall r : Q,
    exits r radius (resolution costmap) fuel ->
    ray_loop fm costmap pose radius angle fuel r <> OutOfFuel.
Proof.
  induction fuel as [|fuel IH]; intros r Hex.
  - destruct (exits_zero _ _ _ Hex).
  - cbn [ray_loop]. destruct (Qle_bool r radius) eqn:Hle; [| discriminate].
    pose proof (sample_safe_no_fuel (ray_x fm pose angle r) (ray_y fm pose angle r))
      as Hnf.
    destruct (sample_safe costmap (ray_x fm pose angle r) (ray_y fm pose angle r))
      as [[|] | |]; cbn [bind]; try discriminate; [| congruence].
    apply IH. apply exits_step; [apply Qle_bool_iff; exact Hle | exact Hex].
Qed.

Lemma heading_safe_total (angle : Q) :
  heading_safe fm costmap pose radius angle <> OutOfFuel.
Proof.
  unfold heading_safe.
  destruct (Qlt_le_dec 0 (resolution costmap)) as [Hpos | Hnon].
  - apply ray_loop_exits_total. apply loop_fuel_exits. exact Hpos.
  - assert (Hfuel : exists f, loop_fuel 0 radius (resolution costmap) = S f).
    { unfold loop_fuel. destruct (Qle_bool 0 radius); [| exists 0%nat; reflexivity].
      apply Qle_bool_iff in Hnon. rewrite Hnon. exists 1%nat. reflexivity. }
    destruct Hfuel as (f & ->). cbn [ray_loop].
    destruct (Qle_bool 0 radius); [| discriminate].
    pose proof (sample_safe_degenerate (ray_x fm pose angle 0)
                  (ray_y fm pose angle 0) Hnon) as Hs.
    pose proof (sample_safe_no_fuel (ray_x fm pose angle 0) (ray_y fm pose angle 0))
      as Hnf.
    destruct (sample_safe costmap (ray_x fm pose angle 0) (ray_y fm pose angle 0))
      as [[|] | |]; cbn [bind]; try discriminate; congruence.
Qed.

(** With an increment that is not positive a sweep that starts at or below
    [end_angle] never leaves its loop. *)
Lemma sweep_loop_no_progress (end_angle inc : Q) (fuel : nat) :
  inc <= 0 ->
  forall (a : Q) (t t' : Tracker),
    a <= end_angle ->
    sweep_loop fm costmap pose end_angle radius inc fuel a t <> Done t'.
Proof.
  intro Hinc. induction fuel as [|fuel IH]; intros a t t' Hle; [discriminate |].
  cbn [sweep_loop].
  assert (Hb : Qle_bool a end_angle = true) by (apply Qle_bool_iff; exact Hle).
  rewrite Hb.
  destruct (heading_safe fm costmap pose radius a) as [b | |]; cbn [bind];
    try discriminate.
  apply IH. lra.
Qed.

End Termination.

(** C4: [free_threshold] is declared with the default 5; a sample that
    reads a cell is unsafe exactly when the cell value is at least 253; and
    the value of [free_threshold_] has no part in what [findBestDirection]
    returns. *)
Theorem lethal_test_is_the_literal_253 :
  (forall self : BackUpFreeSpace,
     option_map free_threshold_
       (Behavior.onConfigure self (Some Behavior.no_overrides)) = Some 5%Z) /\
  (forall (costmap : Costmap) (x y : Q) (v : Z),
     sample_cell costmap x y = Done (Some v) ->
     (sample_safe costmap x y = Done false <-> (253 <= v)%Z)) /\
  (forall (fm : FloatMath) (self : BackUpFreeSpace) (threshold : Z)
          (costmap : Costmap) (pose : Pose2D)
          (start_angle end_angle radius inc : Q),
     findBestDirection fm (with_free_threshold self threshold) costmap pose
       start_angle end_angle radius inc
     = findBestDirection fm self costmap pose start_angle end_angle radius inc).
Proof.
  split; [| split].
  - intro self. reflexivity.
  - intros costmap x y v Hc. rewrite sample_safe_cell, Hc. cbn [bind].
    unfold is_lethal. destruct (253 <=? v)%Z eqn:E; cbn [negb].
    + apply Z.leb_le in E. split; [intros _; exact E | reflexivity].
    + apply Z.leb_gt in E. split; [discriminate | lia].
  - intros. reflexivity.
Qed.

Lemma lethal_test_is_the_literal_253_witness :
  (sample_safe Examples.one_arc_at_end (1 # 2) (1 # 2) = Done false
   <-> (253 <= 254)%Z) /\
  (sample_safe (Examples.grid3 [252; 0; 0; 0; 0; 0; 0; 0; 0]%Z) (1 # 2) (1 # 2)
     = Done false <-> (253 <= 252)%Z).
Proof.
  split;
    apply (proj1 (proj2 lethal_test_is_the_literal_253)); reflexivity.
Defined.

Lemma midpoint_of_recorded (t1 t2 : Tracker) :
  recorded t1 = recorded t2 -> midpoint t1 = midpoint t2.
Proof.
  unfold recorded, midpoint. intro H. injection H as H1 H2. rewrite H1, H2.
  reflexivity.
Qed.

(** What [findBestDirection] returns is a function of the recorded arc. *)
Lemma findBestDirection_recorded (fm : FloatMath) (self : BackUpFreeSpace)
    (costmap : Costmap) (pose : Pose2D) (start_angle end_angle radius inc : Q)
    (t : Tracker) :
  sweep fm costmap pose start_angle end_angle radius inc = Done t ->
  marker_pub_line_ self = true ->
  findBestDirection fm self costmap pose start_angle end_angle radius inc
  = Done ((fst (recorded t) + snd (recorded t)) / 2).
Proof.
  intros Hs Hpub. unfold findBestDirection, visualizeline.
  rewrite Hs, Hpub. reflexivity.
Qed.

(** X22: on an object whose line-marker publisher is set, when every
    candidate heading of a sweep with a positive increment is unsafe, the
    tracker is left at its initial values and [findBestDirection] returns
    [(0 + 0) / 2], which is 0. *)
Theorem no_safe_heading_returns_zero (fm : FloatMath) (self : BackUpFreeSpace)
    (costmap : Costmap) (pose : Pose2D) (start_angle end_angle radius inc : Q) :
  0 < inc ->
  marker_pub_line_ self = true ->
  Forall (fun o => o = Done false)
         (sweep_flags fm costmap pose start_angle end_angle radius inc) ->
  sweep fm costmap pose start_angle end_angle radius inc = Done tracker_init /\
  findBestDirection fm self costmap pose start_angle end_angle radius inc
    = Done ((0 + 0) / 2) /\
  (0 + 0) / 2 == 0.
Proof.
  intros Hinc Hpub Hall.
  assert (Hs : sweep fm costmap pose start_angle end_angle radius inc
               = Done tracker_init).
  { unfold sweep. apply sweep_all_unsafe.
    - apply loop_fuel_exits. exact Hinc.
    - apply tracker_init_no_open_arc.
    - unfold sweep_flags, sweep_angles in Hall.
      apply Forall_map in Hall. exact Hall. }
  split; [exact Hs |]. split; [| reflexivity].
  rewrite (findBestDirection_recorded _ _ _ _ _ _ _ _ _ Hs Hpub). reflexivity.
Qed.

Lemma no_safe_heading_returns_zero_witness :
  findBestDirection Approx.float_math Examples.configured Examples.all_lethal
    Examples.centre Examples.six_start Examples.six_end 1 1
  = Done ((0 + 0) / 2).
Proof.
  apply (no_safe_heading_returns_zero Approx.float_math Examples.configured
           Examples.all_lethal Examples.centre
           Examples.six_start Examples.six_end 1 1).
  - reflexivity.
  - reflexivity.
  - vm_compute. repeat constructor.
Defined.

(** X23: for a sweep with a positive increment, (1) on an object whose
    line-marker publisher is set, when the sweep meets no unsafe heading
    after its first safe one -- unsafe headings first, safe headings from
    then on, either part possibly empty -- no arc is recorded and
    [findBestDirection] returns [(0 + 0) / 2 = 0]; (2) safe headings that
    run through the final sweep angle are never recorded: if every candidate
    heading beyond [end'] is safe, the sweep up to [end_angle] gives what the
    sweep up to [end'] gives, a returned heading or the undefined call of
    [visualizeline] alike. *)
Theorem open_arc_never_recorded (fm : FloatMath) (self : BackUpFreeSpace)
    (costmap : Costmap) (pose : Pose2D) (start_angle end_angle radius inc : Q) :
  0 < inc ->
  (forall m n : nat,
     marker_pub_line_ self = true ->
     sweep_flags fm costmap pose start_angle end_angle radius inc
       = repeat (Done false) m ++ repeat (Done true) n ->
     findBestDirection fm self costmap pose start_angle end_angle radius inc
       = Done ((0 + 0) / 2)) /\
  (forall end' : Q,
     end' <= end_angle ->
     Forall (fun a => Qlt_bool end' a = true ->
                      heading_safe fm costmap pose radius a = Done true)
            (sweep_angles start_angle end_angle inc) ->
     findBestDirection fm self costmap pose start_angle end_angle radius inc
       = findBestDirection fm self costmap pose start_angle end' radius inc).
Proof.
  intro Hinc. split.
  - intros m n Hpub Hflags.
    destruct (sweep_unsafe_then_safe fm costmap pose radius inc end_angle
                (loop_fuel start_angle end_angle inc) m n start_angle
                tracker_init) as (t & Hrun & Hrec).
    + apply loop_fuel_exits. exact Hinc.
    + apply tracker_init_no_open_arc.
    + apply tracker_init_settled.
    + exact Hflags.
    + rewrite (findBestDirection_recorded fm self costmap pose start_angle
                 end_angle radius inc t Hrun Hpub), Hrec. reflexivity.
  - intros end' Hends Hall.
    pose proof (sweep_cut fm costmap pose radius inc end' end_angle
                  (loop_fuel start_angle end' inc) Hinc Hends
                  (loop_fuel start_angle end_angle inc) start_angle tracker_init
                  (loop_fuel_exits _ _ _ Hinc) (loop_fuel_exits _ _ _ Hinc)
                  tracker_init_settled Hall) as Hcut.
    unfold findBestDirection, sweep, visualizeline.
    destruct (sweep_loop fm costmap pose end_angle radius inc
                (loop_fuel start_angle end_angle inc) start_angle tracker_init)
      as [t1 | |];
    destruct (sweep_loop fm costmap pose end' radius inc
                (loop_fuel start_angle end' inc) start_angle tracker_init)
      as [t2 | |]; cbn [bind] in *; try discriminate; try reflexivity.
    assert (Hrec : recorded t1 = recorded t2) by congruence.
    rewrite (midpoint_of_recorded t1 t2 Hrec). reflexivity.
Qed.

Lemma open_arc_never_recorded_witness :
  findBestDirection Approx.float_math Examples.configured Examples.all_free
    Examples.centre Examples.six_start Examples.six_end 1 1
  = Done ((0 + 0) / 2) /\
  findBestDirection Approx.float_math Examples.configured
    Examples.wide_arc_at_end Examples.centre
    Examples.six_start Examples.six_end 1 1
  = findBestDirection Approx.float_math Examples.configured
      Examples.wide_arc_at_end Examples.centre
      Examples.six_start (1 # 2) 1 1.
Proof.
  split.
  - apply (open_arc_never_recorded Approx.float_math Examples.configured
             Examples.all_free Examples.centre
             Examples.six_start Examples.six_end 1 1 eq_refl) with (m := 0%nat) (n := 6%nat).
    + reflexivity.
    + vm_compute. reflexivity.
  - apply (open_arc_never_recorded Approx.float_math Examples.configured
             Examples.wide_arc_at_end Examples.centre
             Examples.six_start Examples.six_end 1 1 eq_refl).
    + vm_compute. discriminate.
    + assert (E : sweep_angles Examples.six_start Examples.six_end 1
                  = [- (5 # 2); - (3 # 2); - (1 # 2); 1 # 2; 3 # 2; 5 # 2])
        by (vm_compute; reflexivity).
      rewrite E.
      repeat (constructor;
              [first [ intro H; vm_compute in H; discriminate H
                     | intros _; vm_compute; reflexivity ] |]).
      constructor.
Defined.

Section ClosedArcs.


Lemma track_all_unsafe_idle (l : list Q) (t : Tracker) :
  no_open_arc t -> track_all (headings false l) t = t.
Proof.
  intro Hno. unfold track_all, headings.
  induction l as [|a l IH]; [reflexivity |].
  cbn [map fold_left fst snd]. rewrite (track_step_unsafe_idle a t Hno).
  exact IH.
Qed.




Lemma track_all_app (hs1 hs2 : list (Q * bool)) (t : Tracker) :
  track_all (hs1 ++ hs2) t = track_all hs2 (track_all hs1 t).
Proof. unfold track_all. apply fold_left_app. Qed.

Variable fm : FloatMath.
Variable costmap : Costmap.
Variable pose : Pose2D.
Variable radius : Q.
Variable inc : Q.

(** The sweep loop is the tracker run over the candidate headings. *)
Lemma sweep_loop_profile (end_angle : Q) (fuel : nat) :
  forall (a : Q) (t : Tracker) (hs : list (Q * bool)),
    exits a end_angle inc fuel ->
    map (fun x => (x, heading_safe fm costmap pose radius x))
        (angles_from end_angle inc fuel a)
      = map observed hs ->
    sweep_loop fm costmap pose end_angle radius inc fuel a t
      = Done (track_all hs t).
Proof.
  induction fuel as [|fuel IH]; intros a t hs Hex Hmap.
  - destruct (exits_zero _ _ _ Hex).
  - cbn [sweep_loop angles_from] in *.
    destruct (Qle_bool a end_angle) eqn:Hle.
    + destruct hs as [|[a' b] hs]; [discriminate |].
      cbn [map observed fst snd] in Hmap. injection Hmap as Ha Hb Hrest.
      subst a'. rewrite Hb. cbn [bind].
      apply (IH (a + inc) (track_step a b t) hs); [| exact Hrest].
      apply exits_step; [apply Qle_bool_iff; exact Hle | exact Hex].
    + destruct hs; [reflexivity | discriminate].
Qed.


(** The candidate headings are the successive values of the loop variable
    up to the first one beyond [end_angle]. *)
Lemma angles_from_steps (end_angle : Q) (fuel : nat) :
  forall a : Q,
    exits a end_angle inc fuel ->
    exists n : nat,
      angles_from end_angle inc fuel a = map (nth_step a inc) (seq 0 n) /\
      (forall k, (k < n)%nat -> nth_step a inc k <= end_angle) /\
      end_angle < nth_step a inc n.
Proof.
  induction fuel as [|fuel IH]; intros a Hex.
  - destruct (exits_zero _ _ _ Hex).
  - cbn [angles_from]. destruct (Qle_bool a end_angle) eqn:Hle.
    + apply Qle_bool_iff in Hle.
      destruct (IH (a + inc) (exits_step _ _ _ _ Hle Hex)) as (n & Hl & Hk & Hn).
      exists (S n). split; [| split].
      * cbn [seq map nth_step]. rewrite Hl, <- seq_shift, map_map. reflexivity.
      * intros [|k] Hlt; [exact Hle |]. cbn [nth_step]. apply Hk. lia.
      * exact Hn.
    + exists 0%nat. split; [reflexivity |]. split; [intros k Hk; lia |].
      cbn [nth_step]. apply Qle_bool_false. exact Hle.
Qed.

End ClosedArcs.








(** X3: on a well-formed costmap, with a positive angle increment and the
    line-marker publisher set, [findBestDirection] returns: both loops
    finish and every cell read is defined. *)
Theorem findBestDirection_returns (fm : FloatMath) (self : BackUpFreeSpace)
    (costmap : Costmap) (pose : Pose2D) (start_angle end_angle radius inc : Q) :
  wf_costmap costmap ->
  0 < inc ->
  marker_pub_line_ self = true ->
  exists best_angle,
    findBestDirection fm self costmap pose start_angle end_angle radius inc
      = Done best_angle.
Proof.
  intros Hwf Hinc Hpub.
  destruct (sweep_loop_wf fm costmap pose radius Hwf end_angle inc
              (loop_fuel start_angle end_angle inc) start_angle tracker_init
              (loop_fuel_exits _ _ _ Hinc)) as (t & Ht).
  exists (midpoint t).
  apply (findBestDirection_recorded fm self costmap pose start_angle end_angle
           radius inc t Ht Hpub).
Qed.

Lemma findBestDirection_returns_witness :
  exists best_angle,
    findBestDirection Approx.float_math Examples.configured Examples.closed_arc
      Examples.centre Examples.six_start Examples.six_end 1 1
    = Done best_angle.
Proof.
  apply (findBestDirection_returns Approx.float_math Examples.configured
           Examples.closed_arc Examples.centre
           Examples.six_start Examples.six_end 1 1).
  - unfold wf_costmap, wf_metadata. repeat split; vm_compute; congruence.
  - reflexivity.
  - reflexivity.
Defined.

(** With a positive increment [sweep_angles] lists the headings the sweep
    loop visits: [start_angle] and its successors by [inc], as far as they
    do not exceed [end_angle]. *)
Lemma sweep_angles_steps (start_angle end_angle inc : Q) :
  0 < inc ->
  exists n : nat,
    sweep_angles start_angle end_angle inc
      = map (nth_step start_angle inc) (seq 0 n) /\
    (forall k, (k < n)%nat -> nth_step start_angle inc k <= end_angle) /\
    end_angle < nth_step start_angle inc n.
Proof.
  intro Hinc. apply angles_from_steps. apply loop_fuel_exits. exact Hinc.
Qed.

(** X4: [findBestDirection] calls [visualizeline] whether or not [visualize_]
    is set, while [onConfigure] creates [marker_pub_line_] only when it is:
    configured from the constructed object without [visualize], the object
    has no line-marker publisher and the call at the end of
    [findBestDirection] dereferences an unset handle. *)
Theorem unguarded_visualizeline (fm : FloatMath) (ps : Behavior.Params)
    (self : BackUpFreeSpace) (costmap : Costmap) (pose : Pose2D)
    (start_angle end_angle radius inc : Q) :
  Behavior.param (Behavior.p_visualize ps) false = false ->
  Behavior.onConfigure Examples.constructed (Some ps) = Some self ->
  wf_costmap costmap ->
  0 < inc ->
  marker_pub_line_ self = false /\
  findBestDirection fm self costmap pose start_angle end_angle radius inc
    = Undefined.
Proof.
  intros Hv Hc Hwf Hinc. unfold Behavior.onConfigure in Hc.
  injection Hc as <-. cbn [marker_pub_line_]. rewrite Hv.
  split; [reflexivity |].
  destruct (sweep_loop_wf fm costmap pose radius Hwf end_angle inc
              (loop_fuel start_angle end_angle inc) start_angle tracker_init
              (loop_fuel_exits _ _ _ Hinc)) as (t & Ht).
  unfold findBestDirection, sweep, visualizeline. rewrite Ht. reflexivity.
Qed.

Lemma unguarded_visualizeline_witness :
  findBestDirection Approx.float_math
    {| global_frame_ := "map"; robot_radius_ := 1 # 10; max_radius_ := 1;
       service_name_ := "local_costmap/get_costmap"; free_threshold_ := 5;
       visualize_ := false;
       costmap_client_ := true; marker_pub_ := false; marker_pub_line_ := false;
       initial_pose_ := {| position_x := 0; position_y := 0; yaw := 0 |};
       twist_x_ := 0; twist_y_ := 0; command_x_ := 0;
       command_time_allowance_ := 0; end_time_ := 0 |}
    Examples.closed_arc Examples.centre Examples.six_start Examples.six_end 1 1
  = Undefined.
Proof.
  refine (proj2 (unguarded_visualizeline Approx.float_math Behavior.no_overrides
                   _ Examples.closed_arc Examples.centre
                   Examples.six_start Examples.six_end 1 1 _ _ _ _)).
  - reflexivity.
  - vm_compute. reflexivity.
  - unfold wf_costmap, wf_metadata. repeat split; vm_compute; congruence.
  - reflexivity.
Defined.

(** C1, at a failing input: the six-heading sweep over a grid whose safe
    headings form two arcs, the single heading -2.5 and the two headings 1.5
    and 2.5.  The wider arc runs through the final sweep angle, is never
    closed, and the result is the midpoint -2 recorded for the narrower
    arc. *)
Theorem wider_arc_at_sweep_end_is_passed_over :
  sweep_angles Examples.six_start Examples.six_end 1
    = [- (5 # 2); - (3 # 2); - (1 # 2); 1 # 2; 3 # 2; 5 # 2] /\
  sweep_flags Approx.float_math Examples.wide_arc_at_end Examples.centre
    Examples.six_start Examples.six_end 1 1
    = [Done true; Done false; Done false; Done false; Done true; Done true] /\
  findBestDirection Approx.float_math Examples.configured
    Examples.wide_arc_at_end Examples.centre
    Examples.six_start Examples.six_end 1 1
    = Done ((- (5 # 2) + - (3 # 2)) / 2).
Proof. repeat split; vm_compute; reflexivity. Qed.

(** C2, at a failing input: the six-heading sweep over a grid whose only
    safe headings are the last two, 1.5 and 2.5.  The arc is never closed
    and the result is [(0 + 0) / 2], two angle steps away from the arc's
    midpoint 2. *)
Theorem single_arc_at_sweep_end_is_lost :
  sweep_flags Approx.float_math Examples.one_arc_at_end Examples.centre
    Examples.six_start Examples.six_end 1 1
    = [Done false; Done false; Done false; Done false; Done true; Done true] /\
  findBestDirection Approx.float_math Examples.configured
    Examples.one_arc_at_end Examples.centre
    Examples.six_start Examples.six_end 1 1
    = Done ((0 + 0) / 2) /\
  Qlt_bool 1 (Qabs (((3 # 2) + (5 # 2)) / 2 - (0 + 0) / 2)) = true.
Proof. repeat split; vm_compute; reflexivity. Qed.

End FinderFacts.

(** ** The behavior *)

Module BehaviorFacts.
Import Behavior.

Section Cycle.

Variable fm : FloatMath.

Lemma feedback_values_app (ev ev' : list Event) :
  feedback_values (ev ++ ev') = feedback_values ev ++ feedback_values ev'.
Proof.
  induction ev as [|e ev IH]; [reflexivity |].
  destruct e; cbn [feedback_values app]; rewrite IH; reflexivity.
Qed.

(** A tick after the deadline of a maneuver with a time allowance. *)
Lemma cycle_timeout (self : BackUpFreeSpace) (env : CycleEnv) :
  (0 < command_time_allowance_ self)%Z ->
  (end_time_ self < cycle_now env)%Z ->
  onCycleUpdate fm self env = (FAILED, [StopRobot; LogWarn msg_timeout]).
Proof.
  intros Ha Hd. unfold onCycleUpdate.
  assert (H : ((end_time_ self - cycle_now env <? 0) &&
               (0 <? command_time_allowance_ self))%Z = true).
  { apply andb_true_intro. split; apply Z.ltb_lt; lia. }
  rewrite H. reflexivity.
Qed.

(** A tick that finds the robot short of the target does not succeed. *)
Lemma cycle_short_of_target (self : BackUpFreeSpace) (env : CycleEnv) :
  (forall p, cycle_pose env = Some p ->
             distance_from fm self p < Qabs (command_x_ self)) ->
  fst (onCycleUpdate fm self env) <> SUCCEEDED.
Proof.
  intro Hshort. unfold onCycleUpdate.
  destruct ((end_time_ self - cycle_now env <? 0) &&
            (0 <? command_time_allowance_ self))%Z; [discriminate |].
  destruct (cycle_pose env) as [p|]; [| discriminate].
  specialize (Hshort p eq_refl). apply Qle_bool_false in Hshort.
  rewrite Hshort.
  destruct (isCollisionFree env _ _ _); discriminate.
Qed.

Lemma run_cycles_cons (self : BackUpFreeSpace) (env : CycleEnv)
    (rest : list CycleEnv) :
  fst (run_cycles fm self (env :: rest))
  = match fst (onCycleUpdate fm self env) with
    | RUNNING => fst (run_cycles fm self rest)
    | s => s
    end.
Proof.
  cbn [run_cycles]. destruct (onCycleUpdate fm self env) as [[| |] ev];
    try reflexivity.
  destruct (run_cycles fm self rest). reflexivity.
Qed.

End Cycle.

(** C6: in a maneuver with a positive time allowance, (1) a cycle update
    that finds the deadline passed stops the robot and returns FAILED,
    whatever the distance travelled; (2) a cycle update returns SUCCEEDED
    only when the deadline has not passed; (3) if the deadline passes at a
    tick before which every pose sample was short of the target distance,
    the maneuver ends FAILED. *)
Theorem timeout_before_success (fm : FloatMath) (self : BackUpFreeSpace) :
  (0 < command_time_allowance_ self)%Z ->
  (forall env : CycleEnv,
     (end_time_ self < cycle_now env)%Z ->
     onCycleUpdate fm self env = (FAILED, [StopRobot; LogWarn msg_timeout])) /\
  (forall env : CycleEnv,
     fst (onCycleUpdate fm self env) = SUCCEEDED ->
     (cycle_now env <= end_time_ self)%Z) /\
  (forall (before : list CycleEnv) (env : CycleEnv) (after : list CycleEnv),
     (end_time_ self < cycle_now env)%Z ->
     Forall (fun e => forall p, cycle_pose e = Some p ->
                        distance_from fm self p < Qabs (command_x_ self))
            before ->
     fst (run_cycles fm self (before ++ env :: after)) = FAILED).
Proof.
  intro Ha. split; [| split].
  - intros env Hd. apply cycle_timeout; assumption.
  - intros env Hs.
    destruct (Z.lt_ge_cases (end_time_ self) (cycle_now env)) as [Hd | Hd];
      [| exact Hd].
    rewrite (cycle_timeout fm self env Ha Hd) in Hs. discriminate.
  - intros before env after Hd Hshort.
    induction before as [|e before IH].
    + cbn [app]. rewrite run_cycles_cons, (cycle_timeout fm self env Ha Hd).
      reflexivity.
    + inversion Hshort as [| e' l He Hl]; subst.
      cbn [app]. rewrite run_cycles_cons.
      pose proof (cycle_short_of_target fm self e He) as Hns.
      destruct (fst (onCycleUpdate fm self e)); [congruence | reflexivity |].
      apply IH. exact Hl.
Qed.

Lemma timeout_before_success_witness :
  onCycleUpdate Approx.float_math Examples.timed
    (Examples.tick 5000000001 3 4 true)
  = (FAILED, [StopRobot; LogWarn msg_timeout]) /\
  fst (run_cycles Approx.float_math Examples.timed
         ([Examples.tick 1000000000 (1 # 10) 0 true;
           Examples.tick 5000000000 (6 # 10) 0 true]
          ++ Examples.tick 5000000001 3 4 true :: [])) = FAILED.
Proof.
  destruct (timeout_before_success Approx.float_math Examples.timed eq_refl)
    as (H1 & _ & H3).
  split.
  - apply H1. reflexivity.
  - apply H3; [reflexivity |].
    repeat constructor; intros p Hp; injection Hp as <-;
      vm_compute; reflexivity.
Defined.

(** C7: a cycle update that passes the timeout test, obtains the pose, finds
    the robot short of the target and is told by the collision check that
    the path is not free, publishes the feedback, stops the robot and
    returns FAILED; it publishes no velocity command. *)
Theorem collision_stops_and_fails (fm : FloatMath) (self : BackUpFreeSpace)
    (env : CycleEnv) (p : PoseStamped) :
  ((end_time_ self - cycle_now env <? 0) &&
   (0 <? command_time_allowance_ self))%Z = false ->
  cycle_pose env = Some p ->
  Qle_bool (Qabs (command_x_ self)) (distance_from fm self p) = false ->
  isCollisionFree env (distance_from fm self p)
    (twist_x_ self, twist_y_ self) (pose2d_of p) = false ->
  onCycleUpdate fm self env
    = (FAILED, [PublishFeedback (distance_from fm self p); StopRobot;
                LogWarn msg_collision]) /\
  In StopRobot (snd (onCycleUpdate fm self env)) /\
  (forall vx vy, ~ In (PublishVel vx vy) (snd (onCycleUpdate fm self env))).
Proof.
  intros Ht Hp Hd Hc.
  assert (E : onCycleUpdate fm self env
              = (FAILED, [PublishFeedback (distance_from fm self p); StopRobot;
                          LogWarn msg_collision])).
  { unfold onCycleUpdate. rewrite Ht, Hp, Hd, Hc. reflexivity. }
  rewrite E. cbn [snd]. split; [reflexivity |]. split.
  - right. left. reflexivity.
  - intros vx vy [H | [H | [H | []]]]; discriminate.
Qed.

Lemma collision_stops_and_fails_witness :
  onCycleUpdate Approx.float_math Examples.timed
    (Examples.tick 1000000000 (3 # 10) (4 # 10) false)
  = (FAILED,
     [PublishFeedback
        (distance_from Approx.float_math Examples.timed
           {| position_x := 3 # 10; position_y := 4 # 10; yaw := 0 |});
      StopRobot; LogWarn msg_collision]).
Proof.
  refine (proj1 (collision_stops_and_fails Approx.float_math Examples.timed
                   (Examples.tick 1000000000 (3 # 10) (4 # 10) false)
                   {| position_x := 3 # 10; position_y := 4 # 10; yaw := 0 |}
                   _ _ _ _)).
  - vm_compute. reflexivity.
  - reflexivity.
  - vm_compute. reflexivity.
  - reflexivity.
Defined.

(** X5: [onConfigure] leaves [max_radius_] at least [robot_radius_]: a smaller
    configured value is replaced by the robot radius. *)
Theorem configure_clamps_max_radius (self self' : BackUpFreeSpace)
    (ps : Params) :
  onConfigure self (Some ps) = Some self' ->
  robot_radius_ self' <= max_radius_ self' /\
  (param (p_robot_radius ps) (1 # 10) <= param (p_max_radius ps) 1 ->
   max_radius_ self' = param (p_max_radius ps) 1).
Proof.
  unfold onConfigure. intro H. injection H as <-.
  cbn [robot_radius_ max_radius_].
  destruct (Qlt_bool (param (p_max_radius ps) 1)
                     (param (p_robot_radius ps) (1 # 10))) eqn:E.
  - split; [apply Qle_refl |]. intro Hle. apply Qlt_bool_iff in E.
    exfalso. apply (Qlt_not_le _ _ E Hle).
  - split; [| reflexivity]. unfold Qlt_bool in E.
    apply negb_false_iff, Qle_bool_iff in E. exact E.
Qed.

Lemma configure_clamps_max_radius_witness :
  option_map max_radius_
    (onConfigure Examples.constructed (Some Examples.wide_robot))
  = Some (3 # 2) /\
  (3 # 2) <= (3 # 2).
Proof.
  split; [reflexivity |].
  exact (proj1 (configure_clamps_max_radius Examples.constructed _
                  Examples.wide_robot eq_refl)).
Defined.

Section Run.

Variable env : RunEnv.

(** The wait loop returns by [return FAILED] at the first wait that finds
    the process shut down. *)
Lemma wait_loop_interrupted (k : nat) :
  forall (fuel n : nat) (log : list Event),
    (k < fuel)%nat ->
    (forall i, (n <= i < n + k)%nat ->
               service_ready env i = false /\ rclcpp_ok env i = true) ->
    service_ready env (n + k) = false ->
    rclcpp_ok env (n + k) = false ->
    exists log', wait_for_service_loop env fuel n log = Done (false, log').
Proof.
  induction k as [|k IH]; intros fuel n log Hfuel Hbefore Hready Hok;
    (destruct fuel as [|fuel]; [lia |]); cbn [wait_for_service_loop].
  - rewrite Nat.add_0_r in Hready, Hok. rewrite Hready, Hok. cbn [negb].
    eexists. reflexivity.
  - destruct (Hbefore n) as [Hr Ho]; [lia |]. rewrite Hr, Ho. cbn [negb].
    apply IH.
    + lia.
    + intros i Hi. apply Hbefore. lia.
    + replace (S n + k)%nat with (n + S k)%nat by lia. exact Hready.
    + replace (S n + k)%nat with (n + S k)%nat by lia. exact Hok.
Qed.

(** While the service stays away and the process keeps running, the loop
    does not return. *)
Lemma wait_loop_stuck :
  (forall i, service_ready env i = false /\ rclcpp_ok env i = true) ->
  forall (fuel n : nat) (log : list Event),
    wait_for_service_loop env fuel n log = OutOfFuel.
Proof.
  intro Hdown. induction fuel as [|fuel IH]; intros n log; [reflexivity |].
  cbn [wait_for_service_loop]. destruct (Hdown n) as [Hr Ho].
  rewrite Hr, Ho. cbn [negb]. apply IH.
Qed.

End Run.

(** C8, as the code has it: the grid service is awaited in waits of one
    second each.  (1) If after some wait the service is still unavailable
    and the process is shutting down, [onRun] returns FAILED at once,
    leaving the object as it was; (2) as long as the service is unavailable
    and the process keeps running, [onRun] waits again: it has not returned
    after any number of waits. *)
Theorem service_wait_ends_on_shutdown_only (fm : FloatMath)
    (self : BackUpFreeSpace) (command : Goal) (env : RunEnv) :
  costmap_client_ self = true ->
  (forall n fuel : nat,
     (n < fuel)%nat ->
     (forall i, (i < n)%nat ->
                service_ready env i = false /\ rclcpp_ok env i = true) ->
     service_ready env n = false ->
     rclcpp_ok env n = false ->
     exists log, onRun fm fuel self command env = Done (FAILED, self, log)) /\
  ((forall i, service_ready env i = false /\ rclcpp_ok env i = true) ->
   forall fuel : nat, onRun fm fuel self command env = OutOfFuel).
Proof.
  intro Hclient. split.
  - intros n fuel Hfuel Hbefore Hready Hok.
    destruct (wait_loop_interrupted env n fuel 0%nat [] Hfuel) as (log & Hrun);
      try assumption.
    + intros i Hi. apply Hbefore. lia.
    + exists log. unfold onRun. rewrite Hclient. cbn [negb].
      rewrite Hrun. reflexivity.
  - intros Hdown fuel. unfold onRun. rewrite Hclient. cbn [negb].
    rewrite (wait_loop_stuck env Hdown). reflexivity.
Qed.

Lemma service_wait_ends_on_shutdown_only_witness :
  (exists log,
     onRun Approx.float_math 3 Examples.configured Examples.goal
       Examples.shutdown_in_third_wait
     = Done (FAILED, Examples.configured, log)) /\
  onRun Approx.float_math 3600 Examples.configured Examples.goal
    Examples.service_down = OutOfFuel.
Proof.
  destruct (service_wait_ends_on_shutdown_only Approx.float_math
              Examples.configured Examples.goal
              Examples.shutdown_in_third_wait eq_refl) as [H1 _].
  destruct (service_wait_ends_on_shutdown_only Approx.float_math
              Examples.configured Examples.goal
              Examples.service_down eq_refl) as [_ H2].
  split.
  - apply (H1 2%nat 3%nat); [lia | | reflexivity | reflexivity].
    intros i Hi. destruct i as [|[|i]]; [split; reflexivity .. | lia].
  - apply H2. intro i. split; reflexivity.
Defined.

(** The service stays unavailable while the process runs: after the first
    wait of one second, and after an hour of such waits, [onRun] has not
    returned FAILED; it is still waiting. *)
Lemma service_down_run_keeps_waiting :
  onRun Approx.float_math 1 Examples.configured Examples.goal
    Examples.service_down = OutOfFuel /\
  onRun Approx.float_math 3600 Examples.configured Examples.goal
    Examples.service_down = OutOfFuel.
Proof. split; vm_compute; reflexivity. Qed.

Section Feedback.

Variable fm : FloatMath.

Lemma cycle_feedback (self : BackUpFreeSpace) (env : CycleEnv) :
  feedback_values (snd (onCycleUpdate fm self env)) = []
  \/ exists p, cycle_pose env = Some p /\
               feedback_values (snd (onCycleUpdate fm self env))
               = [distance_from fm self p].
Proof.
  unfold onCycleUpdate.
  destruct ((end_time_ self - cycle_now env <? 0) &&
            (0 <? command_time_allowance_ self))%Z; [left; reflexivity |].
  destruct (cycle_pose env) as [p|]; [| left; reflexivity].
  right. exists p. split; [reflexivity |].
  destruct (Qle_bool _ _); [reflexivity |].
  destruct (negb _); reflexivity.
Qed.

(** A cycle that returns RUNNING published the distance of its pose sample. *)
Lemma cycle_running_feedback (self : BackUpFreeSpace) (env : CycleEnv)
    (ev : list Event) :
  onCycleUpdate fm self env = (RUNNING, ev) ->
  exists p, cycle_pose env = Some p /\
            feedback_values ev = [distance_from fm self p].
Proof.
  unfold onCycleUpdate.
  destruct ((end_time_ self - cycle_now env <? 0) &&
            (0 <? command_time_allowance_ self))%Z; [discriminate |].
  destruct (cycle_pose env) as [p|]; [| discriminate].
  destruct (Qle_bool _ _); [discriminate |].
  destruct (negb _); [discriminate |].
  intro H. injection H as <-. exists p. split; reflexivity.
Qed.

End Feedback.

(** C9, as the code has it: the value published as feedback is [hypot] of
    the differences between the reference pose and the pose sample of the
    cycle; over a maneuver the published values are, in order, the
    distances of the successive pose samples from the reference pose.  The
    code keeps no maximum and integrates nothing, so the sequence rises and
    falls with the pose samples. *)
Theorem feedback_is_distance_to_reference (fm : FloatMath)
    (self : BackUpFreeSpace) :
  (forall p : PoseStamped,
     distance_from fm self p
     = fhypot fm (position_x (initial_pose_ self) - position_x p)
                 (position_y (initial_pose_ self) - position_y p)) /\
  (forall env : CycleEnv,
     feedback_values (snd (onCycleUpdate fm self env)) = []
     \/ exists p, cycle_pose env = Some p /\
                  feedback_values (snd (onCycleUpdate fm self env))
                  = [distance_from fm self p]) /\
  (forall ticks : list CycleEnv,
     exists samples : list PoseStamped,
       feedback_values (snd (run_cycles fm self ticks))
         = map (distance_from fm self) samples /\
       map Some samples
         = map cycle_pose (firstn (List.length samples) ticks)).
Proof.
  split; [reflexivity |]. split; [apply cycle_feedback |].
  induction ticks as [|env rest IH].
  - exists []. split; reflexivity.
  - cbn [run_cycles].
    destruct (onCycleUpdate fm self env) as [[| |] ev] eqn:E.
    + destruct (cycle_feedback fm self env) as [H | (p & Hp & H)];
        rewrite E in H; cbn [snd] in *.
      * exists []. split; [exact H | reflexivity].
      * exists [p]. split; [exact H |]. cbn. rewrite Hp. reflexivity.
    + destruct (cycle_feedback fm self env) as [H | (p & Hp & H)];
        rewrite E in H; cbn [snd] in *.
      * exists []. split; [exact H | reflexivity].
      * exists [p]. split; [exact H |]. cbn. rewrite Hp. reflexivity.
    + destruct (cycle_running_feedback fm self env ev E) as (p & Hp & Hfb).
      destruct IH as (samples & Hs & Hm).
      destruct (run_cycles fm self rest) as [s ev'] eqn:R. cbn [snd] in *.
      exists (p :: samples). split.
      * rewrite feedback_values_app, Hfb, Hs. reflexivity.
      * cbn [map List.length firstn]. rewrite Hp, Hm. reflexivity.
Qed.

(** Two ticks of one maneuver: the robot is found 5 m from the reference
    pose, then 1 m from it; both cycles return RUNNING and the feedback
    published is 5, then 1. *)
Lemma feedback_decreases :
  fst (run_cycles Approx.float_math Examples.backing
         [Examples.tick 1000000000 3 4 true;
          Examples.tick 2000000000 (6 # 10) (8 # 10) true]) = RUNNING /\
  feedback_values
    (snd (run_cycles Approx.float_math Examples.backing
            [Examples.tick 1000000000 3 4 true;
             Examples.tick 2000000000 (6 # 10) (8 # 10) true]))
  = [5000000 # 1000000; 1000000 # 1000000] /\
  Qlt_bool (1000000 # 1000000) (5000000 # 1000000) = true.
Proof. repeat split; vm_compute; reflexivity. Qed.

End BehaviorFacts.

(** ** More about the finder *)

Module FinderMore.
Import Finder FinderNotions.

Section Range.

Lemma is_unset_sentinel : is_unset (-1) = true.
Proof. reflexivity. Qed.

(** One step of the tracker at a heading between [lo] and [hi]. *)
Lemma track_step_ranged (lo hi a : Q) (b : bool) (t : Tracker) :
  lo <= a -> a <= hi -> ranged lo hi t -> ranged lo hi (track_step a b t).
Proof.
  intros Hlo Hhi (Hf & Hl & Hr). destruct t as [f l fs fu].
  unfold ranged, recorded, track_step in *.
  cbn [first_safe_angle last_unsafe_angle final_safe_angle final_unsafe_angle]
    in *.
  set (f1 := if (b && is_unset f)%bool then a else f).
  set (l1 := if (negb b && negb (is_unset f1) && is_unset l)%bool then a else l).
  assert (Hf1 : f1 = -1 \/ (lo <= f1 /\ f1 <= hi)).
  { unfold f1. destruct (b && is_unset f)%bool; [right; split; assumption | exact Hf]. }
  assert (Hl1 : l1 = -1 \/ (lo <= l1 /\ l1 <= hi)).
  { unfold l1. destruct (negb b && negb (is_unset f1) && is_unset l)%bool;
      [right; split; assumption | exact Hl]. }
  destruct (Qgt_bool (l1 - f1) (fu - fs) && negb (is_unset f1) &&
            negb (is_unset l1))%bool eqn:Hc;
    cbn [first_safe_angle last_unsafe_angle final_safe_angle final_unsafe_angle].
  - apply andb_true_iff in Hc. destruct Hc as [Hc Hls].
    apply andb_true_iff in Hc. destruct Hc as [_ Hfs].
    split; [left; reflexivity |]. split; [left; reflexivity |]. right.
    destruct Hf1 as [E | [? ?]];
      [rewrite E in Hfs; discriminate |].
    destruct Hl1 as [E | [? ?]];
      [rewrite E in Hls; discriminate |].
    repeat split; assumption.
  - split; [exact Hf1 |]. split; [exact Hl1 | exact Hr].
Qed.

Variable fm : FloatMath.
Variable costmap : Costmap.
Variable pose : Pose2D.
Variable radius : Q.

Lemma sweep_loop_ranged (lo end_angle inc : Q) (fuel : nat) :
  0 <= inc ->
  forall (a : Q) (t t' : Tracker),
    lo <= a -> ranged lo end_angle t ->
    sweep_loop fm costmap pose end_angle radius inc fuel a t = Done t' ->
    ranged lo end_angle t'.
Proof.
  intro Hinc. induction fuel as [|fuel IH]; intros a t t' Hlo Hr Hrun;
    [discriminate |].
  cbn [sweep_loop] in Hrun.
  destruct (Qle_bool a end_angle) eqn:Hle.
  - apply Qle_bool_iff in Hle.
    destruct (heading_safe fm costmap pose radius a) as [b | |];
      cbn [bind] in Hrun; try discriminate.
    apply (IH (a + inc) (track_step a b t) t'); [lra | | exact Hrun].
    apply track_step_ranged; assumption.
  - injection Hrun as <-. exact Hr.
Qed.

End Range.

Lemma tracker_init_ranged (lo hi : Q) : ranged lo hi tracker_init.
Proof.
  unfold ranged. split; [left; reflexivity |]. split; left; reflexivity.
Qed.

Lemma midpoint_between (lo hi x y : Q) :
  lo <= x -> x <= hi -> lo <= y -> y <= hi ->
  lo <= (x + y) / 2 /\ (x + y) / 2 <= hi.
Proof.
  intros. unfold Qdiv. change (/ 2) with (1 # 2). split; lra.
Qed.

Lemma findBestDirection_ranged (fm : FloatMath) (self : BackUpFreeSpace)
    (costmap : Costmap) (pose : Pose2D)
    (start_angle end_angle radius inc best_angle : Q) :
  0 <= inc ->
  findBestDirection fm self costmap pose start_angle end_angle radius inc
    = Done best_angle ->
  best_angle = (0 + 0) / 2 \/
  (start_angle <= best_angle /\ best_angle <= end_angle).
Proof.
  intros Hinc Hrun. unfold findBestDirection, sweep in Hrun.
  destruct (sweep_loop fm costmap pose end_angle radius inc
              (loop_fuel start_angle end_angle inc) start_angle tracker_init)
    as [t | |] eqn:Hs; cbn [bind] in Hrun; try discriminate.
  destruct (visualizeline self pose radius (final_safe_angle t)
              (final_unsafe_angle t)); cbn [bind] in Hrun; try discriminate.
  injection Hrun as <-.
  pose proof (sweep_loop_ranged fm costmap pose radius start_angle end_angle inc
                _ Hinc start_angle tracker_init t (Qle_refl _)
                (tracker_init_ranged _ _) Hs) as (_ & _ & Hr).
  unfold midpoint, recorded in *.
  destruct Hr as [E | (H1 & H2 & H3 & H4)].
  - injection E as -> ->. left. reflexivity.
  - right. apply midpoint_between; assumption.
Qed.

(** X6: the heading [findBestDirection] returns is [(0 + 0) / 2] or lies
    between [start_angle] and [end_angle]; when 0 lies between them -- as
    in [onRun], which sweeps from [-M_PI] to [M_PI] -- it lies between
    them in either case. *)
Theorem best_direction_within_sweep (fm : FloatMath) (self : BackUpFreeSpace)
    (costmap : Costmap) (pose : Pose2D)
    (start_angle end_angle radius inc best_angle : Q) :
  0 <= inc ->
  findBestDirection fm self costmap pose start_angle end_angle radius inc
    = Done best_angle ->
  (best_angle = (0 + 0) / 2 \/
   (start_angle <= best_angle /\ best_angle <= end_angle)) /\
  (start_angle <= 0 -> 0 <= end_angle ->
   start_angle <= best_angle /\ best_angle <= end_angle).
Proof.
  intros Hinc Hrun.
  pose proof (findBestDirection_ranged fm self costmap pose start_angle
                end_angle radius inc best_angle Hinc Hrun) as Hr.
  split; [exact Hr |]. intros H0 H1.
  destruct Hr as [-> | Hr]; [| exact Hr].
  unfold Qdiv. change (/ 2) with (1 # 2). split; lra.
Qed.

Lemma best_direction_within_sweep_witness :
  Examples.six_start <= (- (1 # 2) + (5 # 2)) / 2 /\
  (- (1 # 2) + (5 # 2)) / 2 <= Examples.six_end.
Proof.
  refine (proj2 (best_direction_within_sweep Approx.float_math
                   Examples.configured Examples.closed_arc Examples.centre
                   Examples.six_start Examples.six_end 1 1
                   ((- (1 # 2) + (5 # 2)) / 2) _ _) _ _).
  - vm_compute. discriminate.
  - vm_compute. reflexivity.
  - vm_compute. discriminate.
  - vm_compute. discriminate.
Defined.

Section Tracks.

Lemma closed_run_snoc (hs : list (Q * bool)) (x : Q * bool) (a1 u : Q) :
  closed_run hs a1 u -> closed_run (hs ++ [x]) a1 u.
Proof.
  intros (before & arc & rest & ->).
  exists before, arc, (rest ++ [x]).
  repeat rewrite <- app_assoc. reflexivity.
Qed.

Lemma headings_snoc (b : bool) (l : list Q) (a : Q) :
  headings b (l ++ [a]) = headings b l ++ [(a, b)].
Proof. unfold headings. rewrite map_app. reflexivity. Qed.

Ltac tracker_fields :=
  cbn [first_safe_angle last_unsafe_angle final_safe_angle final_unsafe_angle
       andb negb].

Ltac tracker_simpl :=
  repeat (progress
            (tracker_fields;
             try change (is_unset (-1)) with true;
             rewrite ?andb_false_r, ?andb_true_r;
             try match goal with
                 | H : is_unset _ = _ |- _ => rewrite H
                 end;
             try match goal with
                 | H : Qgt_bool _ _ = _ |- _ => rewrite H
                 end)).

(** One step of the tracker at a heading other than the sentinel. *)
Lemma track_step_tracks (hs : list (Q * bool)) (a : Q) (b : bool) (t : Tracker) :
  is_unset a = false ->
  tracks hs t -> tracks (hs ++ [(a, b)]) (track_step a b t).
Proof.
  intros Ha (Hrec & Hph). destruct t as [f l fs fu].
  unfold tracks, recorded in *.
  cbn [first_safe_angle last_unsafe_angle final_safe_angle final_unsafe_angle]
    in Hrec, Hph.
  assert (Hrec' : (fs, fu) = (0, 0) \/ closed_run (hs ++ [(a, b)]) fs fu).
  { destruct Hrec as [E | Hc]; [left; exact E | right].
    apply closed_run_snoc. exact Hc. }
  destruct Hph as [[-> ->] | [(Hf & -> & before & arc & Hhs) | (Hf & Hl & Hw)]].
  - (* no arc open *)
    destruct b; unfold track_step; tracker_simpl.
    + split; [exact Hrec' |]. right. left.
      split; [first [reflexivity | assumption] |]. split; [reflexivity |].
      exists hs, []. reflexivity.
    + split; [exact Hrec' |]. left. split; reflexivity.
  - (* an arc is open *)
    destruct b; unfold track_step; tracker_simpl.
    + split; [exact Hrec' |]. right. left.
      split; [first [reflexivity | assumption] |]. split; [reflexivity |].
      exists before, (arc ++ [a]). rewrite Hhs.
      change (f :: arc ++ [a]) with ((f :: arc) ++ [a]).
      rewrite headings_snoc, app_assoc. reflexivity.
    + destruct (Qgt_bool (a - f) (fu - fs)) eqn:Hw; tracker_simpl.
      * split; [| left; split; reflexivity].
        right. exists before, arc, []. rewrite Hhs, <- app_assoc. reflexivity.
      * split; [exact Hrec' |]. right. right.
        split; [first [reflexivity | assumption] |]. split; [first [reflexivity | assumption] | first [reflexivity | assumption]].
  - (* a closed arc is pending *)
    destruct b; unfold track_step; tracker_simpl;
      (split; [exact Hrec' |]; right; right;
       split; [first [reflexivity | assumption] |]; split; [first [reflexivity | assumption] | first [reflexivity | assumption]]).
Qed.

Lemma track_all_tracks (todo : list (Q * bool)) :
  forall (hs : list (Q * bool)) (t : Tracker),
    Forall (fun h => is_unset (fst h) = false) todo ->
    tracks hs t -> tracks (hs ++ todo) (track_all todo t).
Proof.
  induction todo as [|[a b] todo IH]; intros hs t Hset Ht.
  - rewrite app_nil_r. exact Ht.
  - inversion Hset as [| h l Ha Hl]; subst. cbn [fst] in Ha.
    change (hs ++ (a, b) :: todo) with (hs ++ [(a, b)] ++ todo).
    rewrite app_assoc. unfold track_all. cbn [fold_left fst snd].
    apply (IH (hs ++ [(a, b)]) (track_step a b t) Hl).
    apply track_step_tracks; assumption.
Qed.

Lemma tracker_init_tracks : tracks [] tracker_init.
Proof.
  unfold tracks. split; [left; reflexivity |]. left. split; reflexivity.
Qed.

End Tracks.

(** X7: when no candidate heading equals the sentinel -1.0, what
    [findBestDirection] returns is [(0 + 0) / 2], with no arc recorded, or
    the midpoint of [a1] and [u] where [a1] starts a run of consecutive
    safe headings of the sweep and [u] is the unsafe heading that ends the
    run: the recorded arc never spans an unsafe heading. *)
Theorem best_direction_is_a_safe_run (fm : FloatMath) (self : BackUpFreeSpace)
    (costmap : Costmap) (pose : Pose2D) (start_angle end_angle radius inc : Q)
    (hs : list (Q * bool)) :
  0 < inc ->
  marker_pub_line_ self = true ->
  sweep_profile fm costmap pose start_angle end_angle radius inc
    = map observed hs ->
  Forall (fun h => is_unset (fst h) = false) hs ->
  findBestDirection fm self costmap pose start_angle end_angle radius inc
    = Done ((0 + 0) / 2) \/
  exists a1 u : Q,
    closed_run hs a1 u /\
    findBestDirection fm self costmap pose start_angle end_angle radius inc
      = Done ((a1 + u) / 2).
Proof.
  intros Hinc Hpub Hprof Hset.
  assert (Hs : sweep fm costmap pose start_angle end_angle radius inc
               = Done (track_all hs tracker_init)).
  { unfold sweep.
    apply (FinderFacts.sweep_loop_profile fm costmap pose radius inc end_angle
             _ _ _ _ (loop_fuel_exits _ _ _ Hinc) Hprof). }
  rewrite (FinderFacts.findBestDirection_recorded _ _ _ _ _ _ _ _ _ Hs Hpub).
  destruct (track_all_tracks hs [] tracker_init Hset tracker_init_tracks)
    as (Hrec & _).
  cbn [app] in Hrec. unfold recorded in *. cbn [fst snd].
  destruct Hrec as [E | Hc].
  - left. injection E as -> ->. reflexivity.
  - right. exists (final_safe_angle (track_all hs tracker_init)),
                  (final_unsafe_angle (track_all hs tracker_init)).
    split; [exact Hc | reflexivity].
Qed.

Lemma best_direction_is_a_safe_run_witness :
  findBestDirection Approx.float_math Examples.configured
    Examples.narrow_then_wide Examples.centre
    Examples.six_start Examples.six_end 1 1
  = Done ((0 + 0) / 2) \/
  exists a1 u : Q,
    closed_run
      [(- (5 # 2), true); (- (3 # 2), false); (- (1 # 2), true);
       (1 # 2, true); (3 # 2, false); (5 # 2, false)] a1 u /\
    findBestDirection Approx.float_math Examples.configured
      Examples.narrow_then_wide Examples.centre
      Examples.six_start Examples.six_end 1 1
    = Done ((a1 + u) / 2).
Proof.
  apply (best_direction_is_a_safe_run Approx.float_math Examples.configured
           Examples.narrow_then_wide Examples.centre
           Examples.six_start Examples.six_end 1 1).
  - reflexivity.
  - reflexivity.
  - vm_compute. reflexivity.
  - repeat constructor.
Defined.



(** X9: the sentinel -1.0 is also a heading.  A safe heading equal to it
    does not open an arc: when it is the only safe heading of the sweep
    nothing is recorded and the result is [(0 + 0) / 2]. *)
Theorem safe_heading_at_sentinel_is_lost (fm : FloatMath)
    (self : BackUpFreeSpace) (costmap : Costmap) (pose : Pose2D)
    (start_angle end_angle radius inc : Q)
    (before : list Q) (a1 : Q) (rest : list Q) :
  0 < inc ->
  marker_pub_line_ self = true ->
  sweep_profile fm costmap pose start_angle end_angle radius inc
    = map observed (headings false before ++ headings true [a1]
                    ++ headings false rest) ->
  is_unset a1 = true ->
  findBestDirection fm self costmap pose start_angle end_angle radius inc
    = Done ((0 + 0) / 2).
Proof.
  intros Hinc Hpub Hprof Ha1.
  assert (Hs : sweep fm costmap pose start_angle end_angle radius inc
               = Done {| first_safe_angle := a1; last_unsafe_angle := -1;
                         final_safe_angle := 0; final_unsafe_angle := 0 |}).
  { unfold sweep.
    rewrite (FinderFacts.sweep_loop_profile fm costmap pose radius inc end_angle
               _ _ _ _ (loop_fuel_exits _ _ _ Hinc) Hprof).
    rewrite !FinderFacts.track_all_app.
    rewrite (FinderFacts.track_all_unsafe_idle before _
               FinderFacts.tracker_init_no_open_arc).
    assert (E : track_all (headings true [a1]) tracker_init
                = {| first_safe_angle := a1; last_unsafe_angle := -1;
                     final_safe_angle := 0; final_unsafe_angle := 0 |}).
    { unfold track_all, headings, tracker_init, track_step.
      cbn [map fold_left fst snd first_safe_angle last_unsafe_angle
           final_safe_angle final_unsafe_angle andb negb].
      change (is_unset (-1)) with true. cbn [andb negb].
      rewrite Ha1. cbn [andb negb]. rewrite andb_false_r. reflexivity. }
    rewrite E. rewrite FinderFacts.track_all_unsafe_idle by exact Ha1.
    reflexivity. }
  rewrite (FinderFacts.findBestDirection_recorded _ _ _ _ _ _ _ _ _ Hs Hpub).
  reflexivity.
Qed.

Lemma safe_heading_at_sentinel_is_lost_witness :
  findBestDirection Approx.float_math Examples.configured
    MoreExamples.only_minus_one Examples.centre (-2) 3 1 1
  = Done ((0 + 0) / 2).
Proof.
  apply (safe_heading_at_sentinel_is_lost Approx.float_math Examples.configured
           MoreExamples.only_minus_one Examples.centre (-2) 3 1 1
           [-2] (-2 + 1) [-2 + 1 + 1; -2 + 1 + 1 + 1; -2 + 1 + 1 + 1 + 1;
                          -2 + 1 + 1 + 1 + 1 + 1]);
    vm_compute; reflexivity.
Defined.

(** X10: with a negative radius the ray loop runs no iteration, so every
    heading is classified safe whatever the costmap holds, and
    [findBestDirection] returns [(0 + 0) / 2]. *)
Theorem negative_radius_samples_nothing (fm : FloatMath)
    (self : BackUpFreeSpace) (costmap : Costmap) (pose : Pose2D)
    (start_angle end_angle radius inc : Q) :
  radius < 0 ->
  (forall angle : Q, heading_safe fm costmap pose radius angle = Done true) /\
  (0 < inc -> marker_pub_line_ self = true ->
   findBestDirection fm self costmap pose start_angle end_angle radius inc
     = Done ((0 + 0) / 2)).
Proof.
  intro Hneg.
  assert (Hsafe : forall angle,
             heading_safe fm costmap pose radius angle = Done true).
  { intro angle. unfold heading_safe, loop_fuel.
    assert (E : Qle_bool 0 radius = false) by (apply Qle_bool_false; exact Hneg).
    rewrite E. cbn [ray_loop]. rewrite E. reflexivity. }
  split; [exact Hsafe |]. intros Hinc Hpub.
  destruct (FinderFacts.sweep_trailing_safe fm costmap pose radius inc end_angle
              (loop_fuel start_angle end_angle inc) start_angle tracker_init
              (loop_fuel_exits _ _ _ Hinc) FinderFacts.tracker_init_settled)
    as (t & Hrun & Hrec).
  - apply Forall_forall. intros x _. apply Hsafe.
  - rewrite (FinderFacts.findBestDirection_recorded fm self costmap pose
               start_angle end_angle radius inc t Hrun Hpub), Hrec.
    reflexivity.
Qed.

Lemma negative_radius_samples_nothing_witness :
  findBestDirection Approx.float_math Examples.configured Examples.all_lethal
    Examples.centre Examples.six_start Examples.six_end (-1) 1
  = Done ((0 + 0) / 2).
Proof.
  refine (proj2 (negative_radius_samples_nothing Approx.float_math
                   Examples.configured Examples.all_lethal Examples.centre
                   Examples.six_start Examples.six_end (-1) 1 _) _ _);
    reflexivity.
Defined.

End FinderMore.

(** ** gatherFreePoints *)

Module GatherFacts.
Import Gather.

Section Loops.

Variable fm : FloatMath.
Variable costmap : Costmap.
Variable pose : Pose2D.
Variable radius : Q.









(** The loops return by themselves or stop at a read past the data. *)
Lemma gather_j_no_fuel (i : Z) (n : nat) :
  forall (j : Z) (results : list (Q * Q)),
    gather_j fm costmap pose radius i n j results <> OutOfFuel.
Proof.
  induction n as [|n IH]; intros j results; cbn [gather_j]; [discriminate |].
  destruct (within_radius fm costmap pose radius i j); [| apply IH].
  destruct (nth_error (data costmap) (Z.to_nat (cell_idx costmap i j)));
    [apply IH | discriminate].
Qed.

(** A column none of whose cells lies within the radius is passed without a
    read. *)
Lemma gather_j_beyond (i : Z) (n : nat) :
  forall (j0 : nat) (results : list (Q * Q)),
    (forall j : nat, (j0 <= j < j0 + n)%nat ->
       within_radius fm costmap pose radius i (Z.of_nat j) = false) ->
    gather_j fm costmap pose radius i n (Z.of_nat j0) results = Done results.
Proof.
  induction n as [|n IH]; intros j0 results Hall; cbn [gather_j]; [reflexivity |].
  rewrite (Hall j0) by lia.
  replace (Z.of_nat j0 + 1)%Z with (Z.of_nat (S j0)) by lia.
  apply IH. intros j Hj. apply Hall. lia.
Qed.

(** A cell within the radius whose index is past the end of the data makes
    the column undefined. *)
Lemma gather_j_past_data (i : Z) (jb : nat) (n : nat) :
  within_radius fm costmap pose radius i (Z.of_nat jb) = true ->
  (List.length (data costmap) <= Z.to_nat (cell_idx costmap i (Z.of_nat jb)))%nat ->
  forall (j0 : nat) (results : list (Q * Q)),
    (j0 <= jb < j0 + n)%nat ->
    gather_j fm costmap pose radius i n (Z.of_nat j0) results = Undefined.
Proof.
  intros Hin Hpast. induction n as [|n IH]; intros j0 results Hj; [lia |].
  cbn [gather_j].
  replace (Z.of_nat j0 + 1)%Z with (Z.of_nat (S j0)) by lia.
  destruct (Nat.eq_dec j0 jb) as [-> | Hne].
  - rewrite Hin. apply nth_error_None in Hpast. rewrite Hpast. reflexivity.
  - destruct (within_radius fm costmap pose radius i (Z.of_nat j0));
      [| apply IH; lia].
    destruct (nth_error (data costmap)
                (Z.to_nat (cell_idx costmap i (Z.of_nat j0))));
      [apply IH; lia | reflexivity].
Qed.

Lemma gather_i_beyond (m : nat) :
  forall (i0 : nat) (results : list (Q * Q)),
    (forall i j : nat,
       (i0 <= i < i0 + m)%nat -> (Z.of_nat j < size_y costmap)%Z ->
       within_radius fm costmap pose radius (Z.of_nat i) (Z.of_nat j) = false) ->
    gather_i fm costmap pose radius m (Z.of_nat i0) results = Done results.
Proof.
  induction m as [|m IH]; intros i0 results Hall; cbn [gather_i]; [reflexivity |].
  change 0%Z with (Z.of_nat 0).
  rewrite gather_j_beyond by (intros j Hj; apply Hall; lia). cbn [bind].
  replace (Z.of_nat i0 + 1)%Z with (Z.of_nat (S i0)) by lia.
  apply IH. intros i j Hi Hj. apply Hall; [lia | exact Hj].
Qed.

Lemma gather_i_past_data (ib jb : nat) (m : nat) :
  (Z.of_nat jb < size_y costmap)%Z ->
  within_radius fm costmap pose radius (Z.of_nat ib) (Z.of_nat jb) = true ->
  (List.length (data costmap)
   <= Z.to_nat (cell_idx costmap (Z.of_nat ib) (Z.of_nat jb)))%nat ->
  forall (i0 : nat) (results : list (Q * Q)),
    (i0 <= ib < i0 + m)%nat ->
    gather_i fm costmap pose radius m (Z.of_nat i0) results = Undefined.
Proof.
  intros Hjb Hin Hpast. induction m as [|m IH]; intros i0 results Hi; [lia |].
  cbn [gather_i]. change 0%Z with (Z.of_nat 0).
  replace (Z.of_nat i0 + 1)%Z with (Z.of_nat (S i0)) by lia.
  destruct (Nat.eq_dec i0 ib) as [-> | Hne].
  - rewrite (gather_j_past_data (Z.of_nat ib) jb (Z.to_nat (size_y costmap))
               Hin Hpast 0%nat results) by lia.
    reflexivity.
  - pose proof (gather_j_no_fuel (Z.of_nat i0) (Z.to_nat (size_y costmap))
                  (Z.of_nat 0) results) as Hnf.
    destruct (gather_j fm costmap pose radius (Z.of_nat i0)
                (Z.to_nat (size_y costmap)) (Z.of_nat 0) results)
      as [r | |]; cbn [bind]; [apply IH; lia | reflexivity | congruence].
Qed.

End Loops.



(** X14: [gatherFreePoints] reads a cell only when its corner lies within
    the radius, and reads it unchecked.  (1) When no corner of the grid
    lies within the radius the result is empty whatever [data] holds, an
    empty array included; (2) when a cell whose corner lies within the
    radius has its index at or past the end of [data], the read is
    undefined behaviour. *)
Theorem gather_reads_the_cells_in_reach_unchecked (fm : FloatMath)
    (costmap : Costmap) (pose : Pose2D) (radius : Q) :
  ((forall i j : nat,
      (Z.of_nat i < size_x costmap)%Z -> (Z.of_nat j < size_y costmap)%Z ->
      radius < fhypot fm (cell_x costmap (Z.of_nat i) - pose_x pose)
                         (cell_y costmap (Z.of_nat j) - pose_y pose)) ->
   gatherFreePoints fm costmap pose radius = Done []) /\
  (forall i j : nat,
     (Z.of_nat i < size_x costmap)%Z -> (Z.of_nat j < size_y costmap)%Z ->
     fhypot fm (cell_x costmap (Z.of_nat i) - pose_x pose)
               (cell_y costmap (Z.of_nat j) - pose_y pose) <= radius ->
     (List.length (data costmap)
      <= Z.to_nat (cell_idx costmap (Z.of_nat i) (Z.of_nat j)))%nat ->
     gatherFreePoints fm costmap pose radius = Undefined).
Proof.
  split.
  - intro Hall. unfold gatherFreePoints. change 0%Z with (Z.of_nat 0).
    apply gather_i_beyond. intros i j Hi Hj.
    unfold within_radius. apply Qle_bool_false. apply Hall; lia.
  - intros i j Hi Hj Hd Hpast. unfold gatherFreePoints.
    change 0%Z with (Z.of_nat 0).
    apply (gather_i_past_data fm costmap pose radius i j); try assumption.
    + unfold within_radius. apply Qle_bool_iff. exact Hd.
    + lia.
Qed.

Lemma hypotq_nonneg (a b : Q) : 0 <= Approx.hypotq a b.
Proof.
  unfold Approx.hypotq, Qle. cbn [Qnum Qden].
  pose proof (Z.sqrt_nonneg
                (Qfloor ((a * a + b * b) * inject_Z 1000000000000))).
  lia.
Qed.

Lemma gather_reads_the_cells_in_reach_unchecked_witness :
  gatherFreePoints Approx.float_math
    {| resolution := 1; origin_x := 0; origin_y := 0;
       size_x := 3; size_y := 3; data := [] |} Examples.centre (- (1 # 2))
    = Done [] /\
  gatherFreePoints Approx.float_math
    {| resolution := 1; origin_x := 0; origin_y := 0;
       size_x := 3; size_y := 3; data := [0; 0; 0; 0]%Z |} Examples.centre 1
    = Undefined.
Proof.
  split.
  - apply (proj1 (gather_reads_the_cells_in_reach_unchecked Approx.float_math
                    _ Examples.centre (- (1 # 2)))).
    intros i j _ _. apply Qlt_le_trans with 0; [reflexivity |].
    apply hypotq_nonneg.
  - apply (proj2 (gather_reads_the_cells_in_reach_unchecked Approx.float_math
                    _ Examples.centre 1) 1%nat 1%nat).
    + reflexivity.
    + reflexivity.
    + vm_compute. discriminate.
    + vm_compute. lia.
Defined.

End GatherFacts.

(** ** More about the behavior *)

Module BehaviorMore.
Import Behavior.

(** X15: a cycle update publishes a velocity command exactly when it
    returns RUNNING, and the command is then the stored twist; a RUNNING
    cycle sends no stop, a SUCCEEDED cycle sends one, and a FAILED cycle
    sends one except when it failed because the pose lookup failed. *)
Theorem cycle_commands (fm : FloatMath) (self : BackUpFreeSpace)
    (env : CycleEnv) :
  (forall vx vy : Q,
     In (PublishVel vx vy) (snd (onCycleUpdate fm self env)) <->
     fst (onCycleUpdate fm self env) = RUNNING /\
     vx = twist_x_ self /\ vy = twist_y_ self) /\
  (fst (onCycleUpdate fm self env) = RUNNING ->
   ~ In StopRobot (snd (onCycleUpdate fm self env))) /\
  (fst (onCycleUpdate fm self env) = SUCCEEDED ->
   In StopRobot (snd (onCycleUpdate fm self env))) /\
  (fst (onCycleUpdate fm self env) = FAILED ->
   (~ In StopRobot (snd (onCycleUpdate fm self env)) <->
    cycle_pose env = None /\
    ((end_time_ self - cycle_now env <? 0) &&
     (0 <? command_time_allowance_ self))%Z = false)).
Proof.
  unfold onCycleUpdate.
  destruct ((end_time_ self - cycle_now env <? 0) &&
            (0 <? command_time_allowance_ self))%Z eqn:Ht.
  - cbn [fst snd In]. repeat split; intros; intuition congruence.
  - destruct (cycle_pose env) as [p|].
    + destruct (Qle_bool (Qabs (command_x_ self)) (distance_from fm self p)).
      * cbn [fst snd In]. repeat split; intros; intuition congruence.
      * destruct (negb (isCollisionFree env (distance_from fm self p)
                          (twist_x_ self, twist_y_ self) (pose2d_of p)));
          cbn [fst snd In]; repeat split; intros; intuition congruence.
    + cbn [fst snd In]. repeat split; intros; intuition congruence.
Qed.

(** X16: with a time allowance that is not positive the timeout test never
    fires: the clock has no part in what a cycle update does. *)
Theorem no_allowance_no_timeout (fm : FloatMath) (self : BackUpFreeSpace)
    (env env' : CycleEnv) :
  (command_time_allowance_ self <= 0)%Z ->
  cycle_pose env = cycle_pose env' ->
  isCollisionFree env = isCollisionFree env' ->
  onCycleUpdate fm self env = onCycleUpdate fm self env'.
Proof.
  intros Ha Hp Hc. unfold onCycleUpdate.
  assert (E : (0 <? command_time_allowance_ self)%Z = false)
    by (apply Z.ltb_ge; exact Ha).
  rewrite E, !andb_false_r, Hp, Hc. reflexivity.
Qed.

Lemma no_allowance_no_timeout_witness :
  onCycleUpdate Approx.float_math Examples.backing (Examples.tick 1 3 4 true)
  = onCycleUpdate Approx.float_math Examples.backing
      (Examples.tick 1000000000000 3 4 true).
Proof.
  apply (no_allowance_no_timeout Approx.float_math Examples.backing
           (Examples.tick 1 3 4 true) (Examples.tick 1000000000000 3 4 true));
    [vm_compute; discriminate | reflexivity | reflexivity].
Defined.

Lemma Qabs_opp_eq (c : Q) : Qabs (- c) = Qabs c.
Proof.
  destruct c as [n d]. unfold Qabs, Qopp. cbn [Qnum Qden].
  rewrite Z.abs_opp. reflexivity.
Qed.

(** X17: the target distance counts by its magnitude.  (1) A cycle update
    does the same for the target [-c] as for [c]; (2) with a target of 0 a
    cycle that gets past the timeout test and obtains the pose returns
    SUCCEEDED at once, with a stop and no velocity command, the distance
    being at least 0. *)
Theorem target_counts_by_magnitude (fm : FloatMath) (self : BackUpFreeSpace)
    (env : CycleEnv) :
  (forall (twist_x twist_y c : Q) (allowance end_time : Z),
     onCycleUpdate fm (with_command self twist_x twist_y (- c) allowance end_time) env
     = onCycleUpdate fm (with_command self twist_x twist_y c allowance end_time) env) /\
  (forall p : PoseStamped,
     command_x_ self == 0 ->
     ((end_time_ self - cycle_now env <? 0) &&
      (0 <? command_time_allowance_ self))%Z = false ->
     cycle_pose env = Some p ->
     0 <= distance_from fm self p ->
     onCycleUpdate fm self env
     = (SUCCEEDED, [PublishFeedback (distance_from fm self p); StopRobot])).
Proof.
  split.
  - intros. unfold onCycleUpdate, distance_from.
    cbn [with_command command_x_ end_time_ command_time_allowance_
         initial_pose_ twist_x_ twist_y_].
    rewrite Qabs_opp_eq. reflexivity.
  - intros p Hc Ht Hp Hd. unfold onCycleUpdate. rewrite Ht, Hp.
    assert (E : Qle_bool (Qabs (command_x_ self)) (distance_from fm self p) = true).
    { apply Qle_bool_iff. rewrite Hc. exact Hd. }
    rewrite E. reflexivity.
Qed.

Lemma target_counts_by_magnitude_witness :
  onCycleUpdate Approx.float_math
    (with_command Examples.backing (1 # 2) 0 0 0 0) (Examples.tick 1 3 4 true)
  = (SUCCEEDED,
     [PublishFeedback
        (distance_from Approx.float_math
           (with_command Examples.backing (1 # 2) 0 0 0 0)
           {| position_x := 3; position_y := 4; yaw := 0 |});
      StopRobot]).
Proof.
  apply (proj2 (target_counts_by_magnitude Approx.float_math
                  (with_command Examples.backing (1 # 2) 0 0 0 0)
                  (Examples.tick 1 3 4 true))).
  - reflexivity.
  - reflexivity.
  - reflexivity.
  - apply GatherFacts.hypotq_nonneg.
Defined.

Section Maneuver.

Variable fm : FloatMath.
Variable self : BackUpFreeSpace.

(** What a cycle that returns SUCCEEDED, or RUNNING, has sent. *)
Lemma cycle_succeeded (env : CycleEnv) (ev : list Event) :
  onCycleUpdate fm self env = (SUCCEEDED, ev) ->
  exists d, ev = [PublishFeedback d; StopRobot] /\ Qabs (command_x_ self) <= d.
Proof.
  unfold onCycleUpdate.
  destruct ((end_time_ self - cycle_now env <? 0) &&
            (0 <? command_time_allowance_ self))%Z; [discriminate |].
  destruct (cycle_pose env) as [p|]; [| discriminate].
  destruct (Qle_bool (Qabs (command_x_ self)) (distance_from fm self p)) eqn:E.
  - intro H. injection H as <-. exists (distance_from fm self p).
    split; [reflexivity | apply Qle_bool_iff; exact E].
  - destruct (negb _); discriminate.
Qed.

Lemma cycle_running (env : CycleEnv) (ev : list Event) :
  onCycleUpdate fm self env = (RUNNING, ev) ->
  exists d, ev = [PublishFeedback d; PublishVel (twist_x_ self) (twist_y_ self)] /\
            d < Qabs (command_x_ self).
Proof.
  unfold onCycleUpdate.
  destruct ((end_time_ self - cycle_now env <? 0) &&
            (0 <? command_time_allowance_ self))%Z; [discriminate |].
  destruct (cycle_pose env) as [p|]; [| discriminate].
  destruct (Qle_bool (Qabs (command_x_ self)) (distance_from fm self p)) eqn:E;
    [discriminate |].
  destruct (negb _); [discriminate |].
  intro H. injection H as <-. exists (distance_from fm self p).
  split; [reflexivity | apply Qle_bool_false; exact E].
Qed.

End Maneuver.

(** X18: a maneuver returns SUCCEEDED only at the target: the last distance
    published is at least the magnitude of the target distance, every one
    published before it was below, and the last event sent is the stop. *)
Theorem succeeded_only_at_the_target (fm : FloatMath) (self : BackUpFreeSpace)
    (ticks : list CycleEnv) :
  fst (run_cycles fm self ticks) = SUCCEEDED ->
  exists (earlier : list Q) (d : Q) (sent : list Event),
    feedback_values (snd (run_cycles fm self ticks)) = earlier ++ [d] /\
    Qabs (command_x_ self) <= d /\
    Forall (fun e => e < Qabs (command_x_ self)) earlier /\
    snd (run_cycles fm self ticks) = sent ++ [StopRobot].
Proof.
  induction ticks as [|env rest IH]; [discriminate |].
  cbn [run_cycles].
  destruct (onCycleUpdate fm self env) as [[| |] ev] eqn:E; cbn [fst snd].
  - intros _. destruct (cycle_succeeded fm self env ev E) as (d & -> & Hd).
    exists [], d, [PublishFeedback d].
    split; [reflexivity |]. split; [exact Hd |].
    split; [constructor | reflexivity].
  - discriminate.
  - destruct (cycle_running fm self env ev E) as (d & -> & Hd).
    destruct (run_cycles fm self rest) as [s ev'] eqn:R. cbn [fst snd] in *.
    intro Hs. destruct (IH Hs) as (earlier & d' & sent & Hfb & Hd' & Hall & Hev).
    exists (d :: earlier), d',
           ([PublishFeedback d; PublishVel (twist_x_ self) (twist_y_ self)] ++ sent).
    rewrite BehaviorFacts.feedback_values_app, Hfb, Hev.
    split; [reflexivity |]. split; [exact Hd' |].
    split; [constructor; assumption |].
    rewrite <- app_assoc. reflexivity.
Qed.

Lemma succeeded_only_at_the_target_witness :
  exists (earlier : list Q) (d : Q) (sent : list Event),
    feedback_values
      (snd (run_cycles Approx.float_math Examples.timed
              [Examples.tick 1000000000 (3 # 10) (4 # 10) true;
               Examples.tick 2000000000 3 4 true]))
      = earlier ++ [d] /\
    Qabs (command_x_ Examples.timed) <= d /\
    Forall (fun e => e < Qabs (command_x_ Examples.timed)) earlier /\
    snd (run_cycles Approx.float_math Examples.timed
           [Examples.tick 1000000000 (3 # 10) (4 # 10) true;
            Examples.tick 2000000000 3 4 true])
      = sent ++ [StopRobot].
Proof.
  apply (succeeded_only_at_the_target Approx.float_math Examples.timed
           [Examples.tick 1000000000 (3 # 10) (4 # 10) true;
            Examples.tick 2000000000 3 4 true]).
  vm_compute. reflexivity.
Defined.

(** The wait loop leaves by its condition at the first wait at which the
    service is there, one warning logged per wait before it. *)
Lemma wait_loop_ready (env : RunEnv) (k : nat) :
  forall (fuel n : nat) (log : list Event),
    (k < fuel)%nat ->
    (forall i, (i < k)%nat ->
       service_ready env (n + i) = false /\ rclcpp_ok env (n + i) = true) ->
    service_ready env (n + k) = true ->
    wait_for_service_loop env fuel n log
    = Done (true, log ++ repeat (LogWarn msg_waiting) k).
Proof.
  induction k as [|k IH]; intros fuel n log Hf Hw Hr.
  - destruct fuel as [|fuel]; [lia |]. cbn [wait_for_service_loop repeat].
    rewrite Nat.add_0_r in Hr. rewrite Hr, app_nil_r. reflexivity.
  - destruct fuel as [|fuel]; [lia |]. cbn [wait_for_service_loop].
    destruct (Hw 0%nat ltac:(lia)) as (H1 & H2). rewrite Nat.add_0_r in H1, H2.
    rewrite H1, H2. cbn [negb].
    rewrite (IH fuel (S n) (log ++ [LogWarn msg_waiting])).
    + rewrite <- app_assoc. reflexivity.
    + lia.
    + intros i Hi. replace (S n + i)%nat with (n + S i)%nat by lia.
      apply Hw. lia.
    + replace (S n + k)%nat with (n + S k)%nat by lia. exact Hr.
Qed.

Lemma sweep_bounds : - M_PI <= 0 /\ 0 <= M_PI /\ 0 < M_PI / 32.
Proof. repeat split; vm_compute; congruence. Qed.

Section Run.

Variable fm : FloatMath.
Variable fuel : nat.
Variable self : BackUpFreeSpace.
Variable command : Goal.
Variable env : RunEnv.

Local Notation "'service_after'" := (BehaviorNotions.service_after env fuel).

Lemma wait_loop_after (n : nat) :
  service_after n ->
  wait_for_service_loop env fuel 0 []
  = Done (true, repeat (LogWarn msg_waiting) n).
Proof.
  intros (Hf & Hw & Hr).
  apply (wait_loop_ready env n fuel 0%nat [] Hf); assumption.
Qed.


(** X20: how a run fails once the service is there.  (1) No response
    within the second: FAILED, the object as it was.  (2) The first pose
    lookup fails: FAILED before any heading is sought, the twist, the target
    distance and the end time as they were.  (3) The second pose lookup
    fails: FAILED after the finder has run and sent its warning and ray
    markers, but the new target distance, allowance and end time are already
    stored, and no "backing up" warning is logged. *)
Theorem run_failures (n : nat) :
  costmap_client_ self = true ->
  service_after n ->
  (costmap_response env = None ->
   onRun fm fuel self command env
   = Done (FAILED, self,
           repeat (LogWarn msg_waiting) n ++ [LogError msg_interrupted])) /\
  (forall costmap : Costmap,
     costmap_response env = Some costmap ->
     pose_lookup_1 env = None ->
     exists self' : BackUpFreeSpace,
       onRun fm fuel self command env
       = Done (FAILED, self',
               repeat (LogWarn msg_waiting) n ++ [LogError msg_no_initial_pose]) /\
       twist_x_ self' = twist_x_ self /\ twist_y_ self' = twist_y_ self /\
       command_x_ self' = command_x_ self /\
       command_time_allowance_ self' = command_time_allowance_ self /\
       end_time_ self' = end_time_ self) /\
  (forall (costmap : Costmap) (p1 : PoseStamped),
     costmap_response env = Some costmap ->
     Finder.wf_costmap costmap ->
     marker_pub_line_ self = true ->
     pose_lookup_1 env = Some p1 ->
     pose_lookup_2 env = None ->
     exists self' : BackUpFreeSpace,
       onRun fm fuel self command env
       = Done (FAILED, self',
               repeat (LogWarn msg_waiting) n ++ finder_events ++
               [LogError msg_no_initial_pose]) /\
       command_x_ self' = target_x command /\
       command_time_allowance_ self' = time_allowance command /\
       end_time_ self' = (run_now env + time_allowance command)%Z).
Proof.
  intros Hc Hs. split; [| split].
  - intros Hresp. unfold onRun. rewrite Hc. cbn [negb].
    rewrite (wait_loop_after n Hs). cbn [bind negb]. rewrite Hresp. reflexivity.
  - intros costmap Hresp Hp1. exists self. split.
    + unfold onRun. rewrite Hc. cbn [negb].
      rewrite (wait_loop_after n Hs). cbn [bind negb]. rewrite Hresp, Hp1.
      reflexivity.
    + repeat split; reflexivity.
  - intros costmap p1 Hresp Hwf Hl Hp1 Hp2.
    destruct sweep_bounds as (_ & _ & Hinc).
    destruct (FinderFacts.sweep_loop_wf fm costmap (pose2d_of p1) (max_radius_ self)
                Hwf M_PI (M_PI / 32) (loop_fuel (- M_PI) M_PI (M_PI / 32))
                (- M_PI) Finder.tracker_init (loop_fuel_exits _ _ _ Hinc))
      as (t & Ht).
    pose proof (FinderFacts.findBestDirection_recorded fm (with_initial_pose self p1)
                  costmap (pose2d_of p1) (- M_PI) M_PI (max_radius_ self)
                  (M_PI / 32) t Ht Hl) as Hbest.
    eexists. split.
    + unfold onRun. rewrite Hc. cbn [negb].
      rewrite (wait_loop_after n Hs). cbn [bind negb]. rewrite Hresp, Hp1.
      change (max_radius_ (with_initial_pose self p1)) with (max_radius_ self).
      rewrite Hbest. cbn [bind]. rewrite Hp2. rewrite <- app_assoc.
      reflexivity.
    + repeat split; reflexivity.
Qed.

End Run.


Lemma run_failures_witness :
  onRun Approx.float_math 2 Examples.configured Examples.goal
    (MoreExamples.with_lookups
       (MoreExamples.ready_at_second_wait MoreExamples.graded) None None None)
  = Done (FAILED, Examples.configured,
          repeat (LogWarn msg_waiting) 1 ++ [LogError msg_interrupted]) /\
  (exists self' : BackUpFreeSpace,
     onRun Approx.float_math 2 Examples.configured Examples.goal
       (MoreExamples.with_lookups
          (MoreExamples.ready_at_second_wait MoreExamples.graded)
          (Some MoreExamples.graded) None (Some MoreExamples.at_centre))
     = Done (FAILED, self',
             repeat (LogWarn msg_waiting) 1 ++ [LogError msg_no_initial_pose]) /\
     twist_x_ self' = twist_x_ Examples.configured /\
     twist_y_ self' = twist_y_ Examples.configured /\
     command_x_ self' = command_x_ Examples.configured /\
     command_time_allowance_ self' = command_time_allowance_ Examples.configured /\
     end_time_ self' = end_time_ Examples.configured) /\
  (exists self' : BackUpFreeSpace,
     onRun Approx.float_math 2 Examples.configured Examples.goal
       (MoreExamples.with_lookups
          (MoreExamples.ready_at_second_wait MoreExamples.graded)
          (Some MoreExamples.graded) (Some MoreExamples.at_centre) None)
     = Done (FAILED, self',
             repeat (LogWarn msg_waiting) 1 ++ finder_events ++
             [LogError msg_no_initial_pose]) /\
     command_x_ self' = target_x Examples.goal /\
     command_time_allowance_ self' = time_allowance Examples.goal /\
     end_time_ self' = (1000000000 + time_allowance Examples.goal)%Z).
Proof.
  assert (Hs : forall env' : RunEnv,
             service_ready env' = (fun n => 0 <? n)%nat ->
             rclcpp_ok env' = (fun _ => true) ->
             BehaviorNotions.service_after env' 2 1).
  { intros env' E1 E2. split; [lia |]. rewrite E1, E2. split; [| reflexivity].
    intros i Hi. destruct i as [|i]; [split; reflexivity | lia]. }
  split; [| split].
  - refine (proj1 (run_failures Approx.float_math 2 Examples.configured
                     Examples.goal
                     (MoreExamples.with_lookups
                        (MoreExamples.ready_at_second_wait MoreExamples.graded)
                        None None None)
                     1 _ _) _);
      [reflexivity | apply Hs; reflexivity | reflexivity].
  - refine (proj1 (proj2 (run_failures Approx.float_math 2 Examples.configured
                            Examples.goal
                            (MoreExamples.with_lookups
                               (MoreExamples.ready_at_second_wait MoreExamples.graded)
                               (Some MoreExamples.graded) None
                               (Some MoreExamples.at_centre))
                            1 _ _))
              MoreExamples.graded _ _);
      [reflexivity | apply Hs; reflexivity | reflexivity | reflexivity].
  - refine (proj2 (proj2 (run_failures Approx.float_math 2 Examples.configured
                            Examples.goal
                            (MoreExamples.with_lookups
                               (MoreExamples.ready_at_second_wait MoreExamples.graded)
                               (Some MoreExamples.graded)
                               (Some MoreExamples.at_centre) None)
                            1 _ _))
              MoreExamples.graded MoreExamples.at_centre _ _ _ _ _);
      [reflexivity | apply Hs; reflexivity | reflexivity | | reflexivity
      | reflexivity | reflexivity].
    vm_compute. repeat split; try reflexivity; try discriminate; try lia.
Defined.

(** X21: cleanup and configuration.  (1) After a cleanup a run is
    undefined: it goes through the client handle that was reset.
    (2) Configuring after a cleanup sets the client and sets the two marker
    publishers exactly when [visualize] is set.  (3) Configuring without a
    cleanup in between keeps publishers of an earlier configuration although
    [visualize] is now off.  (4) Cleanup keeps the parameters and the
    command state. *)
Theorem cleanup_and_configure (self : BackUpFreeSpace) :
  (forall (fm : FloatMath) (fuel : nat) (command : Goal) (env : RunEnv),
     onRun fm fuel (onCleanup self) command env = Undefined) /\
  (forall (ps : Params) (self' : BackUpFreeSpace),
     onConfigure (onCleanup self) (Some ps) = Some self' ->
     costmap_client_ self' = true /\
     marker_pub_ self' = visualize_ self' /\
     marker_pub_line_ self' = visualize_ self') /\
  (forall (ps : Params) (self' : BackUpFreeSpace),
     onConfigure self (Some ps) = Some self' ->
     visualize_ self' = false ->
     marker_pub_ self' = marker_pub_ self /\
     marker_pub_line_ self' = marker_pub_line_ self) /\
  (max_radius_ (onCleanup self) = max_radius_ self /\
   robot_radius_ (onCleanup self) = robot_radius_ self /\
   visualize_ (onCleanup self) = visualize_ self /\
   initial_pose_ (onCleanup self) = initial_pose_ self /\
   command_x_ (onCleanup self) = command_x_ self /\
   end_time_ (onCleanup self) = end_time_ self).
Proof.
  split; [| split; [| split]].
  - intros. reflexivity.
  - intros ps self' H. injection H as <-.
    cbn [costmap_client_ marker_pub_ marker_pub_line_ visualize_ onCleanup].
    destruct (param (p_visualize ps) false); repeat split; reflexivity.
  - intros ps self' H Hv. injection H as <-.
    cbn [marker_pub_ marker_pub_line_ visualize_] in *.
    rewrite Hv. split; reflexivity.
  - repeat split; reflexivity.
Qed.

Lemma cleanup_and_configure_witness :
  (costmap_client_ MoreExamples.configured_quiet = true /\
   marker_pub_ MoreExamples.configured_quiet
   = visualize_ MoreExamples.configured_quiet /\
   marker_pub_line_ MoreExamples.configured_quiet
   = visualize_ MoreExamples.configured_quiet) /\
  (marker_pub_ MoreExamples.reconfigured_quiet = marker_pub_ Examples.configured /\
   marker_pub_line_ MoreExamples.reconfigured_quiet
   = marker_pub_line_ Examples.configured).
Proof.
  split.
  - apply (proj1 (proj2 (cleanup_and_configure Examples.configured))
             no_overrides MoreExamples.configured_quiet).
    reflexivity.
  - apply (proj1 (proj2 (proj2 (cleanup_and_configure Examples.configured)))
             no_overrides MoreExamples.reconfigured_quiet);
      reflexivity.
Defined.

End BehaviorMore.

(** ** The finder on the default configuration *)

Module DefaultFacts.
Import Finder.

(** C5, at a failing input: the object as [onConfigure] leaves it when no
    parameter is overridden -- [visualize] off, no line-marker publisher --
    on a grid all of whose cells are lethal.  Every heading of the sweep is
    unsafe and the tracker is left at its initial values, so line 248 gives
    [(0 + 0) / 2]; the call of [visualizeline] at line 250 then goes through
    the unset publisher and nothing is returned. *)
Theorem no_safe_heading_on_default_configuration :
  Behavior.onConfigure Examples.constructed (Some Behavior.no_overrides)
    = Some MoreExamples.default_configured /\
  marker_pub_line_ MoreExamples.default_configured = false /\
  sweep_flags Approx.float_math Examples.all_lethal Examples.centre
    Examples.six_start Examples.six_end 1 1
    = [Done false; Done false; Done false; Done false; Done false; Done false] /\
  sweep Approx.float_math Examples.all_lethal Examples.centre
    Examples.six_start Examples.six_end 1 1
    = Done tracker_init /\
  findBestDirection Approx.float_math MoreExamples.default_configured
    Examples.all_lethal Examples.centre Examples.six_start Examples.six_end 1 1
    = Undefined.
Proof.
  split; [vm_compute; reflexivity |]. split; [reflexivity |].
  split; [vm_compute; reflexivity |]. split; vm_compute; reflexivity.
Qed.

(** C10, at a failing input: the same object on a grid all of whose cells
    are free.  Every heading of the sweep is safe, no arc is closed and the
    recorded pair stays [(0, 0)]; the call of [visualizeline] at line 250
    goes through the unset publisher and nothing is returned. *)
Theorem open_arc_on_default_configuration :
  marker_pub_line_ MoreExamples.default_configured = false /\
  sweep_flags Approx.float_math Examples.all_free Examples.centre
    Examples.six_start Examples.six_end 1 1
    = [Done true; Done true; Done true; Done true; Done true; Done true] /\
  option_map recorded
    (match sweep Approx.float_math Examples.all_free Examples.centre
             Examples.six_start Examples.six_end 1 1 with
     | Done t => Some t
     | _ => None
     end)
    = Some (0, 0) /\
  findBestDirection Approx.float_math MoreExamples.default_configured
    Examples.all_free Examples.centre Examples.six_start Examples.six_end 1 1
    = Undefined.
Proof.
  split; [reflexivity |]. split; [vm_compute; reflexivity |].
  split; vm_compute; reflexivity.
Qed.

End DefaultFacts.

(** ** One heading in single precision *)

Module SingleFacts.
Import Single.

Section Samples.

Variable lib : FloatLib.
Variable costmap : Costmap.
Variable pose : Pose2D.
Variable radius angle : float32.

(** A sample the code takes to be off the grid ends the ray as unsafe. *)
Lemma sample_safe_off_grid (x y : float32) :
  off_grid costmap x y = true -> sample_safe costmap x y = Done false.
Proof.
  unfold off_grid, sample_safe.
  destruct (bounds_test costmap x y); cbn [negb orb]; [| reflexivity].
  destruct (cell_i costmap x) as [i|]; [| discriminate].
  destruct (cell_j costmap y) as [j|]; [| discriminate].
  destruct (index_test costmap i j); cbn [negb]; [discriminate | reflexivity].
Qed.

(** The ray goes on after a sample exactly when the sample passes both tests
    and reads a value below 253. *)
Lemma sample_safe_true (x y : float32) :
  sample_safe costmap x y = Done true <->
  exists v : Z, reads costmap x y v /\ (v < 253)%Z.
Proof.
  unfold sample_safe, reads. split.
  - destruct (bounds_test costmap x y); [| discriminate].
    destruct (cell_i costmap x) as [i|]; [| discriminate].
    destruct (cell_j costmap y) as [j|]; [| discriminate].
    destruct (index_test costmap i j) eqn:Ei; [| discriminate].
    destruct (read_cell costmap i j) as [v | |] eqn:Er; cbn [bind];
      try discriminate.
    unfold Finder.is_lethal. destruct (253 <=? v)%Z eqn:Ev; cbn [negb];
      [discriminate |].
    intros _. exists v. split; [| apply Z.leb_gt; exact Ev].
    split; [reflexivity |]. exists i, j. repeat split; assumption.
  - intros (v & (Hb & i & j & Hi & Hj & Ht & Hr) & Hv).
    rewrite Hb, Hi, Hj, Ht, Hr. cbn [bind]. unfold Finder.is_lethal.
    apply Z.leb_gt in Hv. rewrite Hv. reflexivity.
Qed.

Lemma sample_safe_fuel (x y : float32) : sample_safe costmap x y <> OutOfFuel.
Proof.
  unfold sample_safe, read_cell.
  destruct (bounds_test costmap x y); [| discriminate].
  destruct (cell_i costmap x) as [i|]; [| discriminate].
  destruct (cell_j costmap y) as [j|]; [| discriminate].
  destruct (index_test costmap i j); [| discriminate].
  destruct (int_checked (j * local_size_x costmap)) as [jw|]; [| discriminate].
  destruct (int_checked (i + jw)) as [idx|]; [| discriminate].
  destruct (nth_error (data costmap) (Z.to_nat idx)); discriminate.
Qed.

(** The ray loop started at [r] ends with [is_safe] still set exactly when
    it leaves by its condition after samples that all let it go on. *)
Lemma ray_loop_true (fuel : nat) :
  forall r : float32,
    ray_loop lib costmap pose radius angle fuel r = Done true <->
    exists n : nat,
      (n < fuel)%nat /\
      SFleb (nth_radius costmap n r) radius = false /\
      forall k : nat, (k < n)%nat ->
        SFleb (nth_radius costmap k r) radius = true /\
        sample_safe costmap (ray_x lib pose angle (nth_radius costmap k r))
                            (ray_y lib pose angle (nth_radius costmap k r))
        = Done true.
Proof.
  induction fuel as [|fuel IH]; intro r.
  - cbn [ray_loop]. split; [discriminate |]. intros (n & Hn & _). lia.
  - cbn [ray_loop]. destruct (SFleb r radius) eqn:Er.
    + destruct (sample_safe costmap (ray_x lib pose angle r) (ray_y lib pose angle r))
        as [[|] | |] eqn:Es; cbn [bind].
      * rewrite IH. split.
        -- intros (n & Hn & Hout & Hall). exists (S n).
           split; [lia |]. split; [exact Hout |].
           intros [|k] Hk; [split; assumption |]. apply Hall. lia.
        -- intros ([|n] & Hn & Hout & Hall).
           ++ cbn [nth_radius] in Hout. congruence.
           ++ exists n. split; [lia |]. split; [exact Hout |].
              intros k Hk. apply (Hall (S k)). lia.
      * split; [discriminate |]. intros ([|n] & Hn & Hout & Hall).
        -- cbn [nth_radius] in Hout. congruence.
        -- destruct (Hall 0%nat ltac:(lia)) as (_ & H0).
           cbn [nth_radius] in H0. congruence.
      * split; [discriminate |]. intros ([|n] & Hn & Hout & Hall).
        -- cbn [nth_radius] in Hout. congruence.
        -- destruct (Hall 0%nat ltac:(lia)) as (_ & H0).
           cbn [nth_radius] in H0. congruence.
      * split; [discriminate |]. intros ([|n] & Hn & Hout & Hall).
        -- cbn [nth_radius] in Hout. congruence.
        -- destruct (Hall 0%nat ltac:(lia)) as (_ & H0).
           cbn [nth_radius] in H0. congruence.
    + split; [| reflexivity]. intros _. exists 0%nat.
      split; [lia |]. split; [exact Er |]. intros k Hk. lia.
Qed.

(** The ray loop started at [r] with an off-grid sample [k] steps on. *)
Lemma ray_loop_off_grid (k : nat) :
  forall (fuel : nat) (r : float32),
    (k < fuel)%nat ->
    (forall i : nat, (i <= k)%nat ->
       SFleb (nth_radius costmap i r) radius = true) ->
    off_grid costmap (ray_x lib pose angle (nth_radius costmap k r))
                     (ray_y lib pose angle (nth_radius costmap k r)) = true ->
    ray_loop lib costmap pose radius angle fuel r <> Done true /\
    ray_loop lib costmap pose radius angle fuel r <> OutOfFuel /\
    ((forall i : nat, (i < k)%nat ->
        sample_safe costmap (ray_x lib pose angle (nth_radius costmap i r))
                            (ray_y lib pose angle (nth_radius costmap i r))
        <> Undefined) ->
     ray_loop lib costmap pose radius angle fuel r = Done false).
Proof.
  induction k as [|k IH]; intros fuel r Hf Hin Hoff;
    (destruct fuel as [|fuel]; [lia |]); cbn [ray_loop];
    pose proof (Hin 0%nat ltac:(lia)) as H0; cbn [nth_radius] in H0; rewrite H0.
  - cbn [nth_radius] in Hoff. rewrite (sample_safe_off_grid _ _ Hoff).
    cbn [bind]. repeat split; try discriminate.
  - destruct (sample_safe costmap (ray_x lib pose angle r) (ray_y lib pose angle r))
      as [[|] | |] eqn:Es; cbn [bind].
    + destruct (IH fuel (add32 r (resolution costmap))) as (H1 & H2 & H3).
      * lia.
      * intros i Hi. apply (Hin (S i)). lia.
      * exact Hoff.
      * split; [exact H1 |]. split; [exact H2 |]. intro Hdef. apply H3.
        intros i Hi. apply (Hdef (S i)). lia.
    + split; [discriminate |]. split; [discriminate |]. reflexivity.
    + split; [discriminate |]. split; [discriminate |]. intro Hdef.
      exfalso. apply (Hdef 0%nat ltac:(lia)). exact Es.
    + exfalso. apply (sample_safe_fuel _ _ Es).
Qed.

End Samples.

(** C3, as amended: a heading one of whose samples -- the [k]-th of the
    ray, taken within the radius -- fails the bounds test of line 213 or the
    index test of line 217, both on the single-precision values the code
    computes, is never classified safe: once the fuel covers the sample the
    result is [is_safe = false], unless an earlier sample left defined
    behaviour; and a sample lets the ray go on only when it fails neither
    test. *)
Theorem sample_failing_a_test_is_unsafe (lib : FloatLib) (costmap : Costmap)
    (pose : Pose2D) (radius angle : float32) (k fuel : nat) :
  (k < fuel)%nat ->
  within_radius costmap radius k ->
  off_grid costmap (sample_x lib costmap pose angle k)
                   (sample_y lib costmap pose angle k) = true ->
  heading_safe lib fuel costmap pose radius angle <> Done true /\
  heading_safe lib fuel costmap pose radius angle <> OutOfFuel /\
  ((forall i : nat, (i < k)%nat ->
      sample_safe costmap (sample_x lib costmap pose angle i)
                          (sample_y lib costmap pose angle i) <> Undefined) ->
   heading_safe lib fuel costmap pose radius angle = Done false) /\
  (forall x y : float32,
     sample_safe costmap x y = Done true -> off_grid costmap x y = false).
Proof.
  intros Hf Hin Hoff.
  destruct (ray_loop_off_grid lib costmap pose radius angle k fuel zero32
              Hf Hin Hoff) as (H1 & H2 & H3).
  split; [exact H1 |]. split; [exact H2 |]. split; [exact H3 |].
  intros x y Hs. destruct (off_grid costmap x y) eqn:E; [| reflexivity].
  rewrite (sample_safe_off_grid costmap x y E) in Hs. discriminate.
Qed.

Lemma sample_failing_a_test_is_unsafe_witness :
  heading_safe Approx32.float_lib 5 SingleExamples.free3 SingleExamples.centre
    (float_of_int 2) (float_lit 1 2)
  = Done false.
Proof.
  refine (proj1 (proj2 (proj2
            (sample_failing_a_test_is_unsafe Approx32.float_lib
               SingleExamples.free3 SingleExamples.centre
               (float_of_int 2) (float_lit 1 2) 2 5 _ _ _))) _).
  - lia.
  - intros i Hi.
    destruct i as [|[|[|i]]]; [vm_compute; reflexivity .. | lia].
  - vm_compute. reflexivity.
  - intros i Hi.
    destruct i as [|[|i]]; [vm_compute; discriminate .. | lia].
Defined.

(** C3 as stated fails.  The grid's corner is at the [double] 0.7 and the
    code narrows it to the [float] 0.699999988.  (1) The robot is on the
    grid, at x = 1.69999999, and the heading is the [float] nearest to pi,
    whose cosine is -1: the sample at r = 1 is computed in [double] as
    0.69999999, left of the grid, and narrowed to 0.699999988, the narrowed
    corner; it passes the bounds test, reads the free cell (0, 0), and the
    heading is classified safe.  (2) The same with the pose itself at
    x = 0.69999999, left of the grid, and the radius 0, where no cosine is
    involved. *)
Lemma sample_left_of_the_grid_is_read_as_free :
  (SFltb (add64 (pose_x SingleExamples.near_corner)
                (widen (mul32 (nth_radius SingleExamples.offset3 1 zero32)
                              (cosf Approx32.float_lib run_end_angle))))
         (origin_x SingleExamples.offset3) = true /\
   sample_x Approx32.float_lib SingleExamples.offset3
     SingleExamples.near_corner run_end_angle 1
     = map_min_x SingleExamples.offset3 /\
   SFltb (widen (map_min_x SingleExamples.offset3))
         (origin_x SingleExamples.offset3) = true /\
   SFleb (nth_radius SingleExamples.offset3 1 zero32) (float_of_int 1) = true /\
   sample_safe SingleExamples.offset3
     (sample_x Approx32.float_lib SingleExamples.offset3
        SingleExamples.near_corner run_end_angle 1)
     (sample_y Approx32.float_lib SingleExamples.offset3
        SingleExamples.near_corner run_end_angle 1) = Done true /\
   heading_safe Approx32.float_lib 3 SingleExamples.offset3
     SingleExamples.near_corner (float_of_int 1) run_end_angle = Done true) /\
  (SFltb (pose_x SingleExamples.left_of_corner)
         (origin_x SingleExamples.offset3) = true /\
   sample_x Approx32.float_lib SingleExamples.offset3
     SingleExamples.left_of_corner zero32 0
     = map_min_x SingleExamples.offset3 /\
   heading_safe Approx32.float_lib 2 SingleExamples.offset3
     SingleExamples.left_of_corner zero32 zero32 = Done true).
Proof.
  split.
  - split; [vm_compute; reflexivity |]. split; [vm_compute; reflexivity |].
    split; [vm_compute; reflexivity |]. split; [vm_compute; reflexivity |].
    split; vm_compute; reflexivity.
  - split; [vm_compute; reflexivity |]. split; vm_compute; reflexivity.
Qed.

(** X11: a heading is classified safe exactly when the ray loop leaves by
    its condition -- the accumulated [r] exceeds the radius at some test
    within the fuel -- after samples that each pass the bounds test and the
    index test and read a cell value below 253; [r] is accumulated, and the
    tests are made, in single precision. *)
Theorem safe_iff_every_sample_reads_below_253 (lib : FloatLib)
    (costmap : Costmap) (pose : Pose2D) (radius angle : float32) (fuel : nat) :
  heading_safe lib fuel costmap pose radius angle = Done true <->
  exists n : nat,
    (n < fuel)%nat /\
    SFleb (nth_radius costmap n zero32) radius = false /\
    forall k : nat, (k < n)%nat ->
      SFleb (nth_radius costmap k zero32) radius = true /\
      exists v : Z,
        reads costmap (sample_x lib costmap pose angle k)
                      (sample_y lib costmap pose angle k) v /\
        (v < 253)%Z.
Proof.
  unfold heading_safe. rewrite ray_loop_true. split.
  - intros (n & Hn & Hout & Hall). exists n. split; [exact Hn |].
    split; [exact Hout |]. intros k Hk. destruct (Hall k Hk) as (H1 & H2).
    split; [exact H1 |]. apply sample_safe_true. exact H2.
  - intros (n & Hn & Hout & Hall). exists n. split; [exact Hn |].
    split; [exact Hout |]. intros k Hk. destruct (Hall k Hk) as (H1 & H2).
    split; [exact H1 |]. apply sample_safe_true. exact H2.
Qed.

(** With the resolution 0.2f and the radius 1 the ray takes six samples:
    the fifth addition of 0.2f gives exactly 1. *)
Lemma safe_iff_every_sample_reads_below_253_witness :
  heading_safe Approx32.float_lib 10 SingleExamples.fine15 SingleExamples.centre
    (float_of_int 1) zero32
  = Done true.
Proof.
  apply (proj2 (safe_iff_every_sample_reads_below_253 Approx32.float_lib
                  SingleExamples.fine15 SingleExamples.centre
                  (float_of_int 1) zero32 10)).
  exists 6%nat. split; [lia |]. split; [vm_compute; reflexivity |].
  intros k Hk.
  assert (Hs : sample_safe SingleExamples.fine15
                 (sample_x Approx32.float_lib SingleExamples.fine15
                    SingleExamples.centre zero32 k)
                 (sample_y Approx32.float_lib SingleExamples.fine15
                    SingleExamples.centre zero32 k) = Done true).
  { destruct k as [|[|[|[|[|[|k]]]]]]; [vm_compute; reflexivity .. | lia]. }
  split.
  - destruct k as [|[|[|[|[|[|k]]]]]]; [vm_compute; reflexivity .. | lia].
  - apply sample_safe_true. exact Hs.
Defined.




End SingleFacts.
